(** * wikitools3.api: the request execution and continuation engine

    A shallow embedding of [src/wikitools3/api.py] (Python 3) and the
    properties of its request encoder, transport executor, response
    decoder, continuation engine and result merger.

    Conventions of the embedding.
    - A Python [str] is a [string]; one [ascii] stands for one code point,
      so the model covers text whose code points are below 256 (U+0000 to
      U+00FF), and every statement about text is a statement about such
      text.  Where the source encodes text as UTF-8 a code point of 128 or
      more becomes two bytes.  Code points from 256 on, with their three
      and four bytes, and lone surrogates, on which [encode] and
      [quote_plus] raise UnicodeEncodeError, are outside the model.
    - A Python [dict] is an association list in insertion order, the order
      Python 3.7+ iterates it in: [d[k] = v] keeps the position of a key
      that is present and appends a new one.
    - Exceptions are values of [exn]; a call that can raise returns a
      [result].
    - Floating-point JSON numbers are outside the model; the two sleeps of
      the source add 0.5 to an integer, so durations are counted in half
      seconds.
    - [print] and [warnings.warn] are not modelled. *)

From Stdlib Require Import ZArith List String Ascii Bool Lia Permutation.
From Stdlib Require Import DecimalString.
Import ListNotations.

Open Scope string_scope.
Open Scope list_scope.
Open Scope Z_scope.

(** ** Python values *)

#[warnings="-register-all"]
Inductive value : Type :=
| VNone
| VBool (b : bool)
| VInt (n : Z)
| VStr (s : string)
| VBytes (s : string)
| VList (l : list value)
| VDict (d : list (string * value)).

Definition dict (V : Type) : Type := list (string * V).

Definition pdict : Type := dict value.

Inductive exn : Type :=
| TransportError (what : string)
  (* the exception [opener.open] raises: URLError, HTTPError, a socket
     timeout *)
| CannotCatch (context : string)
  (* TypeError "catching classes that do not inherit from BaseException is
     not allowed": what Python 3 raises when an exception reaches
     [except None]; the exception being handled is its __context__ *)
| TypeError
| KeyError (key : string)
| AttributeError
| ValueError
| UnsupportedOperation
  (* io.UnsupportedOperation: [seek] on an http.client.HTTPResponse *)
| APIError (args : list value)
| APIDisabled
| UserBlocked (info : value)
| External (what : string).
  (* raised by code outside the repository: poster3 *)

Inductive result (A : Type) : Type :=
| Ok (a : A)
| Raise (e : exn).

Arguments Ok {A} a.
Arguments Raise {A} e.

Definition bind {A B : Type} (r : result A) (f : A -> result B) : result B :=
  match r with
  | Ok a => f a
  | Raise e => Raise e
  end.

Declare Scope result_scope.
Delimit Scope result_scope with result.
Notation "x <- r ;; k" := (bind r (fun x => k))
  (at level 61, r at next level, right associativity) : result_scope.
Open Scope result_scope.

(** ** Dictionaries *)

Section Dict.
Context {V : Type}.

(** [d.get(k)] / [k in d] *)
Fixpoint dget (k : string) (d : dict V) : option V :=
  match d with
  | [] => None
  | (k', v) :: r => if String.eqb k' k then Some v else dget k r
  end.

Definition dmem (k : string) (d : dict V) : bool :=
  match dget k d with Some _ => true | None => false end.

(** [d[k]] *)
Definition dindex (k : string) (d : dict V) : result V :=
  match dget k d with Some v => Ok v | None => Raise (KeyError k) end.

(** [d[k] = v] *)
Fixpoint dset (k : string) (v : V) (d : dict V) : dict V :=
  match d with
  | [] => [(k, v)]
  | (k', v') :: r =>
      if String.eqb k' k then (k', v) :: r else (k', v') :: dset k v r
  end.

(** [d.pop(k, None)], the dictionary that is left *)
Definition dpop (k : string) (d : dict V) : dict V :=
  filter (fun kv => negb (String.eqb (fst kv) k)) d.

(** [d.keys()] as the sequence iteration goes through *)
Definition dkeys (d : dict V) : list string := map fst d.

(** [d.update(e)] *)
Definition dupdate (d e : dict V) : dict V :=
  fold_left (fun acc kv => dset (fst kv) (snd kv) acc) e d.
End Dict.

(** ** Request Encoder: [urlencode] *)

Module Encoder.

(** The characters [quote] never escapes: letters, digits and [_.-~]. *)
Definition always_safe (c : ascii) : bool :=
  let n := N_of_ascii c in
  (((65 <=? n) && (n <=? 90)) || ((97 <=? n) && (n <=? 122))
   || ((48 <=? n) && (n <=? 57))
   || (n =? 95) || (n =? 46) || (n =? 45) || (n =? 126))%N.

Definition hex_digit (n : N) : ascii :=
  match String.get (N.to_nat n) "0123456789ABCDEF" with
  | Some c => c
  | None => "0"%char
  end.

Definition percent (byte : N) : string :=
  String "%" (String (hex_digit (byte / 16)) (String (hex_digit (byte mod 16)) "")).

(** UTF-8 of one code point below 256, the code points a [string] holds:
    one byte below 128, two bytes from 128 on.  Nothing here speaks of the
    code points from 256 on or of lone surrogates. *)
Definition utf8_char (c : ascii) : list N :=
  let n := N_of_ascii c in
  if (n <? 128)%N then [n] else [192 + n / 64; 128 + n mod 64]%N.

Definition quote_char (c : ascii) : string :=
  if Ascii.eqb c " " then "+"
  else if always_safe c then String c ""
  else String.concat "" (map percent (utf8_char c)).

(** [urllib.parse.quote_plus(s)] for a [str] [s] *)
Fixpoint quote_plus (s : string) : string :=
  match s with
  | EmptyString => ""
  | String c r => (quote_char c ++ quote_plus r)%string
  end.

(** [s.encode("utf-8")], one [ascii] per byte *)
Fixpoint utf8 (s : string) : string :=
  match s with
  | EmptyString => ""
  | String c r =>
      (string_of_list_ascii (map ascii_of_N (utf8_char c)) ++ utf8 r)%string
  end.

(** [str(n)] for an [int] *)
Definition str_of_int (n : Z) : string := NilZero.string_of_int (Z.to_int n).

(** [str(b)] for a [bool] *)
Definition str_of_bool (b : bool) : string := if b then "True" else "False".

(** [v.type(str)]: no value a parameter can hold (str, number, bytes,
    None, list, dict) has an attribute [type], so evaluating the condition
    of the third [elif] raises AttributeError and nothing comes back from
    it.  The source marks the line "TODO: .type() broken for python 3".
    The branches behind it (the [encode("utf8", "replace")] one, the
    [len(v)] test and the loop that repeats the key once per element of a
    sequence) are therefore never entered. *)
Definition type_method (v : value) : result Empty_set :=
  Raise AttributeError.

(** One (k, v) pair of the [doseq] loop: the strings it appends to [l]. *)
Definition encode_pair (k : string) (v : value) : result (list string) :=
  let k := quote_plus k in
  match v with
  | VStr s => Ok [(k ++ "=" ++ quote_plus s)%string]
  | VInt n => Ok [(k ++ "=" ++ quote_plus (str_of_int n))%string]
  | VBool b => Ok [(k ++ "=" ++ quote_plus (str_of_bool b))%string]
  | VNone | VBytes _ | VList _ | VDict _ =>
      unreachable <- type_method v ;;
      match unreachable return result (list string) with end
  end.

Fixpoint encode_pairs (query : pdict) : result (list string) :=
  match query with
  | [] => Ok []
  | (k, v) :: r =>
      l1 <- encode_pair k v ;;
      l2 <- encode_pairs r ;;
      Ok (l1 ++ l2)
  end.

(** [urlencode(query, 1)] for a mapping [query]: every call in the module
    passes a dictionary and [doseq = 1]. *)
Definition urlencode (query : pdict) : result string :=
  l <- encode_pairs query ;;
  Ok (String.concat "&" l).

End Encoder.

(** ** The request object *)

(** The configuration read from the owning [Wiki] object.  [credentials]
    is [None] when [wiki.auth] is false and otherwise the base64 text of
    "auth:httppass" with the line breaks removed. *)
Record Wiki : Type := {
  apibase : string;
  useragent : string;
  maxlag : Z;
  maxwaittime : Z;
  assertval : option value;
  credentials : option string
}.

(** [urllib.request.Request(url, data, headers)] *)
Record Request : Type := {
  url : string;
  body : string;
  rheaders : dict string
}.

Record APIRequest : Type := {
  sleep : Z;
  data : pdict;
  iswrite : bool;
  multipart : bool;
  encodeddata : string;
  headers : dict string;
  wiki : Wiki;
  response : option (dict string);  (* [False] before the first exchange *)
  request : Request;
  _continues : list string;         (* set up by __longQuery *)
  _generator : string               (* set up by __longQuery *)
}.

Definition set_sleep (x : Z) (r : APIRequest) : APIRequest :=
  {| sleep := x; data := data r; iswrite := iswrite r;
     multipart := multipart r; encodeddata := encodeddata r;
     headers := headers r; wiki := wiki r; response := response r;
     request := request r; _continues := _continues r;
     _generator := _generator r |}.

Definition set_data (x : pdict) (r : APIRequest) : APIRequest :=
  {| sleep := sleep r; data := x; iswrite := iswrite r;
     multipart := multipart r; encodeddata := encodeddata r;
     headers := headers r; wiki := wiki r; response := response r;
     request := request r; _continues := _continues r;
     _generator := _generator r |}.

Definition set_multipart (x : bool) (r : APIRequest) : APIRequest :=
  {| sleep := sleep r; data := data r; iswrite := iswrite r;
     multipart := x; encodeddata := encodeddata r;
     headers := headers r; wiki := wiki r; response := response r;
     request := request r; _continues := _continues r;
     _generator := _generator r |}.

Definition set_encodeddata (x : string) (r : APIRequest) : APIRequest :=
  {| sleep := sleep r; data := data r; iswrite := iswrite r;
     multipart := multipart r; encodeddata := x;
     headers := headers r; wiki := wiki r; response := response r;
     request := request r; _continues := _continues r;
     _generator := _generator r |}.

Definition set_headers (x : dict string) (r : APIRequest) : APIRequest :=
  {| sleep := sleep r; data := data r; iswrite := iswrite r;
     multipart := multipart r; encodeddata := encodeddata r;
     headers := x; wiki := wiki r; response := response r;
     request := request r; _continues := _continues r;
     _generator := _generator r |}.

Definition set_response (x : option (dict string)) (r : APIRequest)
  : APIRequest :=
  {| sleep := sleep r; data := data r; iswrite := iswrite r;
     multipart := multipart r; encodeddata := encodeddata r;
     headers := headers r; wiki := wiki r; response := x;
     request := request r; _continues := _continues r;
     _generator := _generator r |}.

Definition set_request (x : Request) (r : APIRequest) : APIRequest :=
  {| sleep := sleep r; data := data r; iswrite := iswrite r;
     multipart := multipart r; encodeddata := encodeddata r;
     headers := headers r; wiki := wiki r; response := response r;
     request := x; _continues := _continues r;
     _generator := _generator r |}.

Definition set_tracking (c : list string) (g : string) (r : APIRequest)
  : APIRequest :=
  {| sleep := sleep r; data := data r; iswrite := iswrite r;
     multipart := multipart r; encodeddata := encodeddata r;
     headers := headers r; wiki := wiki r; response := response r;
     request := request r; _continues := c; _generator := g |}.

(** [str(len(s))] *)
Definition str_len (s : string) : string :=
  Encoder.str_of_int (Z.of_nat (String.length s)).

Definition form_type : string := "application/x-www-form-urlencoded".

(** A method of the request object: it may raise, and it leaves the object
    in the state it had reached. *)
Definition method (A : Type) : Type := APIRequest -> result A * APIRequest.

(** [poster3.encode.multipart_encode], a package outside the repository:
    the chunks of the body and the headers that go with them. *)
Class MultipartEncoder : Type :=
  multipart_encode : pdict -> result (list string * dict string).

(** The order in which Python iterates a [set] of item tuples; the
    argument lists the elements in the order they were inserted.  The
    interpreter fixes it through the hashes, the program does not. *)
Class SetOrder : Type :=
  set_iter : list pdict -> list pdict.

Section Engine.

Context {poster : MultipartEncoder} {order : SetOrder}.

(** [self.headers.pop(k)] *)
Definition pop_header (k : string) : method unit :=
  fun self =>
    match dget k (headers self) with
    | Some _ => (Ok tt, set_headers (dpop k (headers self)) self)
    | None => (Raise (KeyError k), self)
    end.

(** The re-encoding shared by [setMultipart] and [changeParam]: both
    branches of [if multipart]. *)
Definition reencode (multi : bool) : method unit :=
  fun self =>
    if multi then
      match multipart_encode (data self) with
      | Raise e => (Raise e, self)
      | Ok (datagen, hdrs) =>
          match pop_header "Content-Length" self with
          | (Raise e, self) => (Raise e, self)
          | (Ok _, self) =>
              match pop_header "Content-Type" self with
              | (Raise e, self) => (Raise e, self)
              | (Ok _, self) =>
                  let self := set_headers (dupdate (headers self) hdrs) self in
                  (Ok tt, set_encodeddata (String.concat "" datagen) self)
              end
          end
      end
    else
      match Encoder.urlencode (data self) with
      | Raise e => (Raise e, self)
      | Ok enc =>
          let self := set_encodeddata enc self in
          let self :=
            set_headers (dset "Content-Length" (str_len enc) (headers self))
              self in
          (Ok tt,
           set_headers (dset "Content-Type" form_type (headers self)) self)
      end.

(** [APIRequest.__init__(wiki, data, write, multipart)].  [canupload] is
    [True], so the guard of the first statement never raises. *)
Definition init (w : Wiki) (d : pdict) (write multi : bool)
  : result APIRequest :=
  let d := dset "format" (VStr "json") d in
  let d := match assertval w with
           | Some a => if write then dset "assert" a d else d
           | None => d
           end in
  let d := if negb (dmem "maxlag" d) && (0 <=? maxlag w)
           then dset "maxlag" (VInt (maxlag w)) d else d in
  p <- (if multi then
          p <- multipart_encode d ;;
          Ok (String.concat "" (fst p), snd p)
        else
          enc <- Encoder.urlencode d ;;
          Ok (enc, [("Content-Type", form_type);
                    ("Content-Length", str_len enc)])) ;;
  let enc := fst p in
  let h := dset "User-agent" (useragent w) (snd p) in
  let h := dset "Accept-Encoding" "gzip" h in
  let h := match credentials w with
           | Some c => dset "Authorization" ("Basic " ++ c)%string h
           | None => h
           end in
  Ok {| sleep := 5; data := d; iswrite := write; multipart := multi;
        encodeddata := enc; headers := h; wiki := w; response := None;
        request := {| url := apibase w; body := enc; rheaders := h |};
        _continues := []; _generator := "" |}.

(** [APIRequest.setMultipart(multipart)] *)
Definition setMultipart (multi : bool) : method unit :=
  fun self => reencode multi (set_multipart multi self).

(** [APIRequest.changeParam(param, value)] *)
Definition changeParam (param : string) (v : value) : method unit :=
  fun self =>
    if String.eqb param "format" then
      (Raise (APIError [VStr "You can not change the result format"]), self)
    else
      let self := set_data (dset param v (data self)) self in
      match reencode (multipart self) self with
      | (Raise e, self) => (Raise e, self)
      | (Ok _, self) =>
          (Ok tt,
           set_request {| url := apibase (wiki self);
                          body := encodeddata self;
                          rheaders := headers self |} self)
      end.


(** ** The network and the clock *)

(** [c.lower()] for a letter of a header name *)
Definition lower (c : ascii) : ascii :=
  let n := N_of_ascii c in
  if ((65 <=? n) && (n <=? 90))%N then ascii_of_N (n + 32) else c.

Fixpoint lowercase (s : string) : string :=
  match s with
  | EmptyString => ""
  | String c r => String (lower c) (lowercase r)
  end.

(** [message.get(name)] on the [HTTPMessage] that [data.info()] returns:
    the value of the first header of that name, the case of the letters in
    the name set aside. *)
Fixpoint header_get (name : string) (h : dict string) : option string :=
  match h with
  | [] => None
  | (k, v) :: r =>
      if String.eqb (lowercase k) (lowercase name) then Some v
      else header_get name r
  end.

(** Lines 285-288: [encoding in ("gzip", "x-gzip")] for the
    [Content-encoding] of the response.  When it holds, [data] leaves
    [__getRaw] as the [gzip.GzipFile] over the body, and otherwise as the
    [http.client.HTTPResponse] that [opener.open] returned. *)
Definition gzipped (h : dict string) : bool :=
  match header_get "Content-encoding" h with
  | Some encoding => String.eqb encoding "gzip" || String.eqb encoding "x-gzip"
  | None => false
  end.

(** The object [__getRaw] returns: the headers [data.info()] gave, which
    also tell whether it is the response itself or the gzip stream over
    its body, and what [json.loads(data.read())] makes of the body, [None]
    when [json.loads] raises.  The body arrives whole: a [read] that raises
    (a connection that breaks, a corrupt gzip stream) is not modelled. *)
Record HTTPResponse : Type := {
  info : dict string;
  json : option value
}.

(** One HTTP exchange: [opener.open] raises (an exception of a class under
    [Exception]), or it returns a response.  These are all the exchanges of
    the model: an exception raised further down in the [try] block of
    [__getRaw], by [data.read()] on line 288 when [data] is bound already,
    is not among them. *)
Inductive outcome : Type :=
| Fails (what : string)
| Answers (r : HTTPResponse).

(** What the program does to the outside: [opener.open(request)] and
    [time.sleep], the duration in half seconds. *)
Inductive event : Type :=
| Opened (r : Request)
| Slept (halfseconds : Z).

Record world : Type := {
  script : list outcome;   (* the exchanges still to come *)
  trace : list event       (* what has happened, oldest first *)
}.

Definition emit (e : event) (w : world) : world :=
  {| script := script w; trace := trace w ++ [e] |}.

(** [time.sleep(seconds + 0.5)] *)
Definition half (seconds : Z) : Z := 2 * seconds + 1.

(** A computation on a request object and the world.  [None]: the model
    has no answer, because the script or the fuel of a loop ran out. *)
Definition net (A : Type) : Type :=
  APIRequest -> world -> option (result A * APIRequest * world).

Definition ret {A : Type} (a : A) : net A :=
  fun self w => Some (Ok a, self, w).

Definition throw {A : Type} (e : exn) : net A :=
  fun self w => Some (Raise e, self, w).

Definition nbind {A B : Type} (m : net A) (f : A -> net B) : net B :=
  fun self w =>
    match m self w with
    | None => None
    | Some (Raise e, self, w) => Some (Raise e, self, w)
    | Some (Ok a, self, w) => f a self w
    end.

Definition lift {A : Type} (r : result A) : net A :=
  fun self w => Some (r, self, w).

Definition call {A : Type} (m : method A) : net A :=
  fun self w => let (r, self) := m self in Some (r, self, w).

Declare Scope net_scope.
Delimit Scope net_scope with net.
Notation "x <~ m ;; k" := (nbind m (fun x => k))
  (at level 61, m at next level, right associativity) : net_scope.

(** ** Transport Executor: [__getRaw] *)

(** The [while not data] loop, one exchange of the script per turn.
    [catcherror] is [Exception] or [None].  When [opener.open] raises,
    [data] is still [False]: with [Exception] the handler runs, it sleeps
    [self.sleep + 0.5] and adds 5 to [self.sleep], and the loop goes on.
    With [None] the clause reads [except None], at which Python 3 raises
    TypeError in place of the exception it was asked to match, so the call
    ends there, and what escapes is never the exception of the transport
    itself.  The body of a request is kept as text throughout: the
    encoding to [bytes] before [open] and back afterwards does not change
    it. *)
Fixpoint getRaw_loop (todo : list outcome) (self : APIRequest)
  (tr : list event) : option (result HTTPResponse * APIRequest * world) :=
  match todo with
  | [] => None
  | o :: rest =>
      let catcherror :=
        negb ((maxwaittime (wiki self) <=? sleep self) || iswrite self) in
      let tr := tr ++ [Opened (request self)] in
      match o with
      | Answers r =>
          Some (Ok r, set_response (Some (info r)) self,
                {| script := rest; trace := tr |})
      | Fails what =>
          if catcherror then
            getRaw_loop rest (set_sleep (sleep self + 5) self)
              (tr ++ [Slept (half (sleep self))])
          else
            Some (Raise (CannotCatch what), self,
                  {| script := rest; trace := tr |})
      end
  end.

Definition getRaw : net HTTPResponse :=
  fun self w => getRaw_loop (script w) self (trace w).

(** ** Response Decoder: [__parseJSON] *)

(** What [__parseJSON] returns: [False] to have the request sent again,
    the wrapped dictionary or list with the headers of the response, or a
    JSON string as it is. *)
Inductive payload : Type :=
| PFalse
| APIResult (d : pdict) (response : dict string)
| APIListResult (l : list value) (response : dict string)
| Primitive (s : string).

(** [v == s] for a string literal [s] *)
Definition is_str (v : value) (s : string) : bool :=
  match v with
  | VStr t => String.eqb t s
  | _ => false
  end.

(** [needle in hay] for two strings *)
Definition str_contains (needle hay : string) : bool :=
  match index 0 needle hay with
  | Some _ => true
  | None => false
  end.

(** [v[k]] for a string [k] *)
Definition subscript (v : value) (k : string) : result value :=
  match v with
  | VDict d => dindex k d
  | _ => Raise TypeError
  end.

(** [k in data] *)
Definition payload_mem (k : string) (p : payload) : result bool :=
  match p with
  | PFalse => Raise TypeError
  | APIResult d _ => Ok (dmem k d)
  | APIListResult l _ => Ok (existsb (fun v => is_str v k) l)
  | Primitive s => Ok (str_contains k s)
  end.

(** [data[k]] *)
Definition payload_index (k : string) (p : payload) : result value :=
  match p with
  | APIResult d _ => dindex k d
  | _ => Raise TypeError
  end.

(** [not data] *)
Definition falsy (p : payload) : bool :=
  match p with
  | PFalse => true
  | APIResult d _ => match d with [] => true | _ => false end
  | APIListResult l _ => match l with [] => true | _ => false end
  | Primitive s => String.eqb s ""
  end.

Definition is_digit (c : ascii) : bool :=
  let n := N_of_ascii c in ((48 <=? n) && (n <=? 57))%N.

(** The longest run of digits at the front of [s], and what follows. *)
Fixpoint span_digits (s : string) : string * string :=
  match s with
  | EmptyString => ("", "")
  | String c r =>
      if is_digit c then
        let (d, rest) := span_digits r in (String c d, rest)
      else ("", s)
  end.

(** [re.search("(\d+) seconds", s)]: group 1 of the leftmost match. *)
Fixpoint search_seconds (s : string) : option string :=
  match s with
  | EmptyString => None
  | String _ r =>
      let (d, rest) := span_digits s in
      if negb (String.eqb d "") && prefix " seconds" rest then Some d
      else search_seconds r
  end.

(** [int(d)] for a string of digits *)
Definition int_of_digits (d : string) : Z :=
  fold_left (fun acc c => 10 * acc + (Z.of_N (N_of_ascii c) - 48))
    (list_ascii_of_string d) 0.

(** The wrapping of [parsed]; [None], TypeError, AttributeError and the
    like of the [try] block are all caught by the bare [except]. *)
Definition wrap (self : APIRequest) (parsed : value) : option payload :=
  match response self with
  | None => None
  | Some h =>
      match parsed with
      | VDict d => Some (APIResult d h)
      | VList l => Some (APIListResult l h)
      | VStr s => Some (Primitive s)
      | VNone | VBool _ | VInt _ | VBytes _ => None
      end
  end.

(** What the [try] block decides once [content] is there. *)
Inductive verdict : Type :=
| Content (c : payload)      (* fall out of the loop: [return content] *)
| Lagged (lagtime : Z)       (* sleep [lagtime + 0.5], [return False] *)
| Caught.                    (* an exception: the [except] clause *)

Definition examine (maxwait : Z) (content : payload) : verdict :=
  match payload_mem "error" content with
  | Raise _ => Caught
  | Ok false => Content content
  | Ok true =>
      match (err <- payload_index "error" content ;; subscript err "code") with
      | Raise _ => Caught
      | Ok code =>
          if is_str code "maxlag" then
            match (err <- payload_index "error" content ;;
                   subscript err "info") with
            | Ok (VStr text) =>
                match search_seconds text with
                | None => Caught
                | Some d =>
                    let lagtime := Z.min (int_of_digits d) maxwait in
                    if half lagtime <? 0 then Caught else Lagged lagtime
                end
            | _ => Caught
            end
          else Content content
      end
  end.

(** The [except] clause, lines 329-337.  Under Python 3 it never gets to
    its [raise APIDisabled] or to its [return False].  On the
    [http.client.HTTPResponse] of a body that was not compressed,
    [data.seek(0)] raises io.UnsupportedOperation.  On the gzip stream
    [seek(0)] rewinds and [data.read()] returns [bytes], and the [in] test
    of a [str] in [bytes] raises TypeError. *)
Definition rescue_clause (r : HTTPResponse) : net payload :=
  if gzipped (info r) then throw TypeError else throw UnsupportedOperation.

(** [__parseJSON(data)]: the loop body runs once. *)
Definition parseJSON (r : HTTPResponse) : net payload :=
  fun self w =>
    match json r with
    | None => rescue_clause r self w
    | Some parsed =>
        match wrap self parsed with
        | None => rescue_clause r self w
        | Some content =>
            match examine (maxwaittime (wiki self)) content with
            | Content c => Some (Ok c, self, w)
            | Lagged lagtime =>
                Some (Ok PFalse, self, emit (Slept (half lagtime)) w)
            | Caught => rescue_clause r self w
            end
        end
    end.


(** ** Result Merger: [resultCombine] *)

(** [k in v] for a string [k] *)
Definition value_mem (k : string) (v : value) : result bool :=
  match v with
  | VDict d => Ok (dmem k d)
  | VList l => Ok (existsb (fun x => is_str x k) l)
  | VStr s => Ok (str_contains k s)
  | VNone | VBool _ | VInt _ | VBytes _ => Raise TypeError
  end.

(** [for x in v] *)
Definition iterate (v : value) : result (list value) :=
  match v with
  | VList l => Ok l
  | VDict d => Ok (map VStr (dkeys d))
  | VStr s => Ok (map (fun c => VStr (String c "")) (list_ascii_of_string s))
  | VBytes s =>
      Ok (map (fun c => VInt (Z.of_N (N_of_ascii c))) (list_ascii_of_string s))
  | VNone | VBool _ | VInt _ => Raise TypeError
  end.

Fixpoint mapM {A B : Type} (f : A -> result B) (l : list A)
  : result (list B) :=
  match l with
  | [] => Ok []
  | x :: r => y <- f x ;; ys <- mapM f r ;; Ok (y :: ys)
  end.

(** Lists and dictionaries cannot be hashed. *)
Definition hashable (v : value) : bool :=
  match v with
  | VList _ | VDict _ => false
  | VNone | VBool _ | VInt _ | VStr _ | VBytes _ => true
  end.

(** [tuple(entry.items())] as an element of a set *)
Definition item_tuple (entry : value) : result pdict :=
  match entry with
  | VDict d =>
      if forallb (fun kv => hashable (snd kv)) d then Ok d
      else Raise TypeError
  | _ => Raise AttributeError
  end.

(** [a == b] on values that hash: [True == 1] and [False == 0]. *)
Definition scalar_eqb (a b : value) : bool :=
  match a, b with
  | VNone, VNone => true
  | VBool x, VBool y => Bool.eqb x y
  | VInt x, VInt y => x =? y
  | VBool x, VInt y => (if x then 1 else 0) =? y
  | VInt x, VBool y => x =? (if y then 1 else 0)
  | VStr x, VStr y => String.eqb x y
  | VBytes x, VBytes y => String.eqb x y
  | _, _ => false
  end.

(** Equality of two item tuples: the same (name, value) pairs in the same
    order. *)
Fixpoint tuple_eqb (s t : pdict) : bool :=
  match s, t with
  | [], [] => true
  | (k, v) :: s', (k', v') :: t' =>
      String.eqb k k' && scalar_eqb v v' && tuple_eqb s' t'
  | _, _ => false
  end.

(** The set built by adding the elements of [l] one after the other: an
    element equal to one already there is not added. *)
Fixpoint set_of (l : list pdict) : list pdict :=
  match l with
  | [] => []
  | t :: r => t :: filter (fun u => negb (tuple_eqb t u)) (set_of r)
  end.

(** Lines 370-373: both sets, their union, and the list made of it. *)
Definition merge_entries (retl newl : value) : result value :=
  re <- iterate retl ;;
  retset <- mapM item_tuple re ;;
  ne <- iterate newl ;;
  newset <- mapM item_tuple ne ;;
  Ok (VList (map VDict (set_iter (set_of (retset ++ newset))))).

(** [p["query"]["pages"]] *)
Definition get_pages (p : payload) : result value :=
  q <- payload_index "query" p ;; subscript q "pages".

(** [c[k] = v] *)
Definition set_item (c : value) (k : string) (v : value) : result value :=
  match c with
  | VDict d => Ok (VDict (dset k v d))
  | _ => Raise TypeError
  end.

(** [ret["query"][k] = v] *)
Definition set_query_item (ret : payload) (k : string) (v : value)
  : result payload :=
  match ret with
  | APIResult d h =>
      q <- dindex "query" d ;;
      q' <- set_item q k v ;;
      Ok (APIResult (dset "query" q' d) h)
  | _ => Raise TypeError
  end.

(** [ret["query"]["pages"][key] = page] *)
Definition set_page (ret : payload) (key : string) (page : value)
  : result payload :=
  pages <- get_pages ret ;;
  pages' <- set_item pages key page ;;
  set_query_item ret "pages" pages'.

(** [ret["query"]["pages"][key][ty] = v] *)
Definition set_prop (ret : payload) (key ty : string) (v : value)
  : result payload :=
  pages <- get_pages ret ;;
  page <- subscript pages key ;;
  page' <- set_item page ty v ;;
  set_page ret key page'.

(** One turn of the loop over the pages of [new]; [ret] and [old] are the
    same object. *)
Definition combine_page (ty : string) (new ret : payload) (key : string)
  : result payload :=
  oldpages <- get_pages ret ;;
  present <- value_mem key oldpages ;;
  newpages <- get_pages new ;;
  newpage <- subscript newpages key ;;
  if negb present then set_page ret key newpage
  else
    innew <- value_mem ty newpage ;;
    if negb innew then Ok ret
    else
      retpage <- subscript oldpages key ;;
      inret <- value_mem ty retpage ;;
      if negb inret then
        x <- subscript newpage ty ;;
        set_prop ret key ty x
      else
        retl <- subscript retpage ty ;;
        newl <- subscript newpage ty ;;
        merged <- merge_entries retl newl ;;
        set_prop ret key ty merged.

Fixpoint combine_pages (ty : string) (new ret : payload) (keys : list string)
  : result payload :=
  match keys with
  | [] => Ok ret
  | key :: r =>
      ret' <- combine_page ty new ret key ;;
      combine_pages ty new ret' r
  end.

(** [resultCombine(type, old, new)]: the aggregate [old] after the call. *)
Definition resultCombine (ty : string) (old new : payload) : result payload :=
  q <- payload_index "query" new ;;
  basic <- value_mem ty q ;;
  if basic then
    rq <- payload_index "query" old ;;
    target <- subscript rq ty ;;
    match target with
    | VList l =>
        more <- subscript q ty ;;
        items <- iterate more ;;
        set_query_item old ty (VList (l ++ items))
    | _ => Raise AttributeError
    end
  else
    pages <- subscript q "pages" ;;
    match pages with
    | VDict d => combine_pages ty new old (dkeys d)
    | _ => Raise AttributeError
    end.


(** ** Continuation Engine *)

(** The loop of lines 169-174 and 194-199: ask until the decoder hands
    back something true, or an empty [APIListResult]. *)
Fixpoint parse_retry (fuel : nat) : net payload :=
  match fuel with
  | O => fun _ _ => None
  | S fuel =>
      (rawdata <~ getRaw ;;
       data <~ parseJSON rawdata ;;
       if falsy data then
         match data with
         | APIListResult _ _ => ret data
         | _ => parse_retry fuel
         end
       else ret data)%net
  end.

(** Lines 175-178 and 200-203. *)
Definition raise_on_error (data : payload) : net unit :=
  fun self w =>
    let r :=
      has <- payload_mem "error" data ;;
      if has then
        blocked <- (if iswrite self then
                      err <- payload_index "error" data ;;
                      code <- subscript err "code" ;;
                      Ok (is_str code "blocked")
                    else Ok false) ;;
        if blocked then
          err <- payload_index "error" data ;;
          text <- subscript err "info" ;;
          Raise (UserBlocked text)
        else
          err <- payload_index "error" data ;;
          code <- subscript err "code" ;;
          err <- payload_index "error" data ;;
          text <- subscript err "info" ;;
          Raise (APIError [code; text])
      else Ok tt in
    Some (r, self, w).

(** [query(False)] *)
Definition query_once (fuel : nat) : net payload :=
  (data <~ parse_retry fuel ;;
   _ <~ raise_on_error data ;;
   _ <~ lift (payload_mem "query-continue" data) ;;
   ret data)%net.

(** *** The legacy protocol: [__longQuery] *)

(** [keys()[0]]: under Python 3 [keys()] is a view, and indexing a view
    raises TypeError ("'dict_keys' object is not subscriptable"). *)
Definition view_first (keys : list string) : result string :=
  Raise TypeError.

(** [res["query-continue"][key1].keys()] *)
Definition inner_keys (qc : pdict) (key1 : string) : result (list string) :=
  v <- dindex key1 qc ;;
  match v with
  | VDict d => Ok (dkeys d)
  | _ => Raise AttributeError
  end.

(** [for key in keylist: if len(key) < 11: ... break] *)
Fixpoint first_short (keylist : list string) : option string :=
  match keylist with
  | [] => None
  | key :: r =>
      if (String.length key <? 11)%nat then Some key else first_short r
  end.

(** The loop over [possiblecontinues] of lines 236-244; [Some] when it
    ends by [break], [None] when it runs to its [else]. *)
Fixpoint scan (qc : pdict) (possible : list string) (key1 key2 : string)
  : result (option (string * string)) :=
  match possible with
  | [] => Ok None
  | posskey :: r =>
      keylist <- inner_keys qc posskey ;;
      let (key1, key2) :=
        match first_short keylist with
        | Some key => (posskey, key)
        | None => (key1, key2)
        end in
      if String.eqb key1 "" then scan qc r key1 key2
      else Ok (Some (key1, key2))
  end.

(** Lines 220-247: the pair (key1, key2) chosen from [query-continue]. *)
Definition select (qc : pdict) : result (string * string) :=
  let possiblecontinues := dkeys qc in
  if (List.length possiblecontinues =? 1)%nat then
    key1 <- view_first possiblecontinues ;;
    keylist <- inner_keys qc key1 ;;
    if (List.length keylist =? 1)%nat then
      key2 <- view_first keylist ;; Ok (key1, key2)
    else
      match first_short keylist with
      | Some key => Ok (key1, key)
      | None => key2 <- view_first keylist ;; Ok (key1, key2)
      end
  else
    found <- scan qc possiblecontinues "" "" ;;
    match found with
    | Some chosen => Ok chosen
    | None =>
        key1 <- view_first possiblecontinues ;;
        keylist <- inner_keys qc key1 ;;
        key2 <- view_first keylist ;;
        Ok (key1, key2)
    end.

(** Lines 248-251: an [int] is passed on, anything else is encoded. *)
Definition continuation_value (qc : pdict) (key1 key2 : string)
  : result value :=
  inner <- dindex key1 qc ;;
  v <- subscript inner key2 ;;
  match v with
  | VInt _ | VBool _ => Ok v
  | VStr s => Ok (VBytes (Encoder.utf8 s))
  | VNone | VBytes _ | VList _ | VDict _ => Raise AttributeError
  end.

(** [s.add(k)] on a set of strings *)
Definition set_add (k : string) (s : list string) : list string :=
  if existsb (String.eqb k) s then s else s ++ [k].

(** [len(key2) >= 11 and key2.startswith("g")] *)
Definition is_generator (key2 : string) : bool :=
  (11 <=? String.length key2)%nat && prefix "g" key2.

(** Lines 252-258.  [params] is [self.data] itself. *)
Definition track (key2 : string) (cont : value) (self : APIRequest)
  : APIRequest :=
  let self :=
    if is_generator key2 then
      set_data (fold_left (fun params ckey => dpop ckey params)
                  (_continues self) (data self))
        (set_tracking (_continues self) key2 self)
    else set_tracking (set_add key2 (_continues self)) (_generator self) self
  in
  set_data (dset key2 cont (data self)) self.

(** [len(res["query-continue"].keys())] *)
Definition numkeys_of (res : payload) : result nat :=
  v <- payload_index "query-continue" res ;;
  match v with
  | VDict d => Ok (List.length (dkeys d))
  | _ => Raise AttributeError
  end.

(** A computation run on another request object, in the same world. *)
Definition on_request {A : Type} (req : APIRequest) (m : net A) : net A :=
  fun self w =>
    match m req w with
    | None => None
    | Some (r, _, w) => Some (r, self, w)
    end.

Fixpoint combine_all (types : list string) (total res : payload)
  : result payload :=
  match types with
  | [] => Ok total
  | ty :: r =>
      total' <- resultCombine ty total res ;;
      combine_all r total' res
  end.

Fixpoint longQuery_loop (fuel : nat) (numkeys : nat) (total res : payload)
  : net payload :=
  if (numkeys =? 0)%nat then ret total
  else
    match fuel with
    | O => fun _ _ => None
    | S fuel =>
        (qc <~ lift (v <- payload_index "query-continue" res ;;
                     match v with
                     | VDict d => Ok d
                     | _ => Raise AttributeError
                     end) ;;
         chosen <~ lift (select qc) ;;
         cont <~ lift (continuation_value qc (fst chosen) (snd chosen)) ;;
         _ <~ call (fun self => (Ok tt, track (snd chosen) cont self)) ;;
         req <~ (fun self w =>
                   Some (init (wiki self) (data self) false false, self, w)) ;;
         res' <~ on_request req (query_once fuel) ;;
         total' <~ lift (combine_all (dkeys qc) total res') ;;
         n <~ lift (has <- payload_mem "query-continue" res' ;;
                    if has then numkeys_of res' else Ok O) ;;
         longQuery_loop fuel n total' res')%net
    end.

(** [__longQuery(initialdata)] *)
Definition longQuery (fuel : nat) (initialdata : payload) : net payload :=
  (_ <~ call (fun self => (Ok tt, set_tracking [] "" self)) ;;
   n <~ lift (numkeys_of initialdata) ;;
   longQuery_loop fuel n initialdata initialdata)%net.

(** [query(querycontinue)] *)
Definition query (fuel : nat) (querycontinue : bool) : net payload :=
  (_ <~ (fun self w =>
           Some ((if querycontinue then
                    _ <- dindex "action" (data self) ;; Ok tt
                  else Ok tt), self, w)) ;;
   data <~ parse_retry fuel ;;
   _ <~ raise_on_error data ;;
   has <~ lift (payload_mem "query-continue" data) ;;
   if has && querycontinue then longQuery fuel data else ret data)%net.

(** *** The modern protocol: [queryGen] *)

(** The generator object [queryGen()] returns: not yet started, suspended
    at its [yield] (with the [data] it handed out and its [reqcopy]), or
    finished. *)
Inductive generator : Type :=
| Unstarted
| Suspended (data : payload) (reqcopy : Request)
| Finished.

(** One call of [next] on the generator: [Ok (Some page)] for a page,
    [Ok None] for StopIteration. *)
Definition resumption : Type :=
  APIRequest -> world ->
  option (result (option payload) * generator * APIRequest * world).

(** Lines 194-204: from the top of [while True] to the [yield]. *)
Definition turn (fuel : nat) (reqcopy : Request) : resumption :=
  fun self w =>
    match (data <~ parse_retry fuel ;;
           _ <~ raise_on_error data ;;
           ret data)%net self w with
    | None => None
    | Some (Raise e, self, w) => Some (Raise e, Finished, self, w)
    | Some (Ok data, self, w) =>
        Some (Ok (Some data), Suspended data reqcopy, self, w)
    end.

(** The (param, data["continue"][param]) pairs the loop of lines 208-209
    goes through.  A [continue] member that is a non-empty list of numbers
    would make numbers parameter names; the model has no answer there. *)
Definition continue_items (cont : value) : option (result pdict) :=
  match cont with
  | VDict d => Some (Ok d)
  | VStr EmptyString | VBytes EmptyString | VList [] => Some (Ok [])
  | VList (VInt _ :: _) | VList (VBool _ :: _) => None
  | VBytes (String _ _) => None
  | VStr (String _ _) | VList (_ :: _) => Some (Raise TypeError)
  | VNone | VBool _ | VInt _ => Some (Raise TypeError)
  end.

Fixpoint change_all (items : pdict) : method unit :=
  fun self =>
    match items with
    | [] => (Ok tt, self)
    | (param, v) :: r =>
        match changeParam param v self with
        | (Raise e, self) => (Raise e, self)
        | (Ok _, self) => change_all r self
        end
    end.

(** [next(gen)] for [gen = self.queryGen()] *)
Definition next (fuel : nat) (g : generator) : resumption :=
  fun self w =>
    match g with
    | Finished => Some (Ok None, Finished, self, w)
    | Unstarted =>
        let reqcopy := request self in
        match changeParam "continue" (VStr "") self with
        | (Raise e, self) => Some (Raise e, Finished, self, w)
        | (Ok _, self) => turn fuel reqcopy self w
        end
    | Suspended data reqcopy =>
        match payload_mem "continue" data with
        | Raise e => Some (Raise e, Finished, self, w)
        | Ok false => Some (Ok None, Finished, self, w)
        | Ok true =>
            let self := set_request reqcopy self in
            match payload_index "continue" data with
            | Raise e => Some (Raise e, Finished, self, w)
            | Ok cont =>
                match continue_items cont with
                | None => None
                | Some (Raise e) => Some (Raise e, Finished, self, w)
                | Some (Ok items) =>
                    match change_all items self with
                    | (Raise e, self) => Some (Raise e, Finished, self, w)
                    | (Ok _, self) => turn fuel reqcopy self w
                    end
                end
            end
        end
    end.

(** The caller that consumes [n] pages at most: [for page in gen]. *)
Fixpoint consume (n fuel : nat) (g : generator) (self : APIRequest)
  (w : world) (pages : list payload)
  : option (result (list payload) * generator * APIRequest * world) :=
  match n with
  | O => Some (Ok pages, g, self, w)
  | S n =>
      match next fuel g self w with
      | None => None
      | Some (Raise e, g, self, w) => Some (Raise e, g, self, w)
      | Some (Ok None, g, self, w) => Some (Ok pages, g, self, w)
      | Some (Ok (Some page), g, self, w) =>
          consume n fuel g self w (pages ++ [page])
      end
  end.

End Engine.

(** * Vocabulary of the properties *)

Definition json_format : value := VStr "json".

(** How many failures a request that is no write request catches when its
    delay is [s] and the maximum wait time [m]: the delays s, s+5, ... that
    are below [m]. *)
Definition retries (s m : Z) : nat := Z.to_nat ((m - s + 4) / 5).

(** What [n] caught failures leave in the trace. *)
Fixpoint backoff (n : nat) (req : Request) (s : Z) : list event :=
  match n with
  | O => []
  | S n => Opened req :: Slept (half s) :: backoff n req (s + 5)
  end.


(** The seconds [__parseJSON] waits for, before the half second it adds. *)
Definition lagtime (digits : string) (maxwait : Z) : Z :=
  Z.min (int_of_digits digits) maxwait.

(** A response that is a page: a dictionary that is not empty and has no
    [error] member. *)
Definition page_response (r : HTTPResponse) (page : pdict) : Prop :=
  json r = Some (VDict page) /\ page <> [] /\ dmem "error" page = false.

Definition hashable_tuple (t : pdict) : Prop :=
  forallb (fun kv => hashable (snd kv)) t = true.

(** A list of tuples in which no two members are equal as tuples. *)
Definition distinct_tuples (l : list pdict) : Prop :=
  NoDup l /\ forall a b, In a l -> In b l -> tuple_eqb a b = true -> a = b.

(** The aggregate [APIResult d h] whose [query] member is [q], with the
    [pages] of [q] replaced. *)
Definition with_pages (d : pdict) (h : dict string) (q pages : pdict)
  : payload :=
  APIResult (dset "query" (VDict (dset "pages" (VDict pages) q)) d) h.

(** An aggregate or a response of the shape [{"query": {"pages": {...}}}] *)
Definition has_pages (p : payload) (d : pdict) (h : dict string)
  (q pages : pdict) : Prop :=
  p = APIResult d h
  /\ dget "query" d = Some (VDict q)
  /\ dget "pages" q = Some (VDict pages).

(** What one turn of the loop of [resultCombine] makes of the page of a
    response: [old] is the page the aggregate has under the same key, if it
    has one. *)
Definition merge_page {order : SetOrder} (ty : string) (old : option value)
  (newpage : value) : result value :=
  match old with
  | None => Ok newpage
  | Some retpage =>
      innew <- value_mem ty newpage ;;
      if negb innew then Ok retpage
      else
        inret <- value_mem ty retpage ;;
        if negb inret then
          x <- subscript newpage ty ;;
          set_item retpage ty x
        else
          retl <- subscript retpage ty ;;
          newl <- subscript newpage ty ;;
          merged <- merge_entries retl newl ;;
          set_item retpage ty merged
  end.

(** [p["query"]["pages"][key][ty]] *)
Definition entries_of (p : payload) (key ty : string) : result value :=
  pages <- get_pages p ;;
  page <- subscript pages key ;;
  subscript page ty.

(** The bodies of the requests that were opened. *)
Definition bodies (tr : list event) : list string :=
  flat_map (fun e => match e with
                     | Opened r => [body r]
                     | Slept _ => []
                     end) tr.

(** ** Sentences of the spec, as they are written *)

(** The spec's sentence for C7: after a caught failure the loop sleeps the
    delay of the moment. *)
Definition sleeps_the_current_delay : Prop :=
  forall self w what r rest,
    iswrite self = false ->
    sleep self < maxwaittime (wiki self) ->
    script w = Fails what :: Answers r :: rest ->
    exists self' w',
      getRaw self w = Some (Ok r, self', w')
      /\ trace w' = trace w ++ [Opened (request self);
                                Slept (2 * sleep self);
                                Opened (request self)].

(** The spec's sentence for C3: the exception of the transport is what a
    write request ends with, after its one [open]. *)
Definition propagates_the_transport_exception : Prop :=
  forall self w what rest,
    iswrite self = true ->
    script w = Fails what :: rest ->
    getRaw self w
    = Some (Raise (TransportError what), self,
            {| script := rest; trace := trace w ++ [Opened (request self)] |}).


(** Equality of two entries by their fields and values: as many fields,
    and every field of the one is a field of the other with an equal
    value.  This is [a == b] for two dictionaries. *)
Definition entry_eqb (a b : pdict) : bool :=
  (List.length a =? List.length b)%nat
  && forallb (fun kv => match dget (fst kv) b with
                        | Some v => scalar_eqb (snd kv) v
                        | None => false
                        end) a.

(** The spec's words for the next request of the modern protocol: the
    parameters of the saved request, each parameter named in the [continue]
    mapping overwritten by its new value. *)
Definition restored_body (saved cont : pdict) : result string :=
  Encoder.urlencode (dupdate saved cont).

(** The spec's words for the selection (4.4 and 9): the outstanding keys
    are the outer keys with their inner keys, in order. *)
Fixpoint first_short_pair (outstanding : list (string * list string))
  : option (string * string) :=
  match outstanding with
  | [] => None
  | (outer, inners) :: r =>
      match first_short inners with
      | Some inner => Some (outer, inner)
      | None => first_short_pair r
      end
  end.

Definition selectContinuationKey (outstanding : list (string * list string))
  : option (string * string) :=
  match outstanding with
  | [] => None
  | [(outer, [inner])] => Some (outer, inner)
  | [(outer, inners)] =>
      match first_short inners with
      | Some inner => Some (outer, inner)
      | None => option_map (fun inner => (outer, inner)) (hd_error inners)
      end
  | (outer, inners) :: _ =>
      match first_short_pair outstanding with
      | Some chosen => Some chosen
      | None => option_map (fun inner => (outer, inner)) (hd_error inners)
      end
  end.

(** The spec's words for the encoder: a sequence repeats the key once per
    element, a scalar that is neither text nor number is percent-encoded
    from its UTF-8 bytes. *)
Definition scalar_text (v : value) : string :=
  match v with
  | VStr s | VBytes s => s
  | VInt n => Encoder.str_of_int n
  | VBool b => Encoder.str_of_bool b
  | VNone | VList _ | VDict _ => "None"
  end.

Definition encode_pair_spec (k : string) (v : value) : list string :=
  match v with
  | VList elts =>
      map (fun elt =>
             (Encoder.quote_plus k ++ "="
              ++ Encoder.quote_plus (scalar_text elt))%string) elts
  | _ => [(Encoder.quote_plus k ++ "="
           ++ Encoder.quote_plus (scalar_text v))%string]
  end.

Definition urlencode_spec (query : pdict) : string :=
  String.concat "&"
    (flat_map (fun kv => encode_pair_spec (fst kv) (snd kv)) query).

Definition is_simple (v : value) : bool :=
  match v with
  | VStr _ | VInt _ | VBool _ => true
  | VNone | VBytes _ | VList _ | VDict _ => false
  end.

(** The (name, text) pairs a mapping of text and numbers stands for. *)
Definition as_text (query : pdict) : list (string * string) :=
  map (fun kv => (fst kv, scalar_text (snd kv))) query.

(** The one field a pair of a name and a text becomes. *)
Definition field_of (kv : string * string) : string :=
  (Encoder.quote_plus (fst kv) ++ "=" ++ Encoder.quote_plus (snd kv))%string.

(** ** A decoder for the bodies [urlencode] writes

    What a server does with the body: [parse_qsl] with blank values kept,
    [unquote_plus] on every name and value.  It is no part of the module;
    it states what "round trip" means. *)

Definition hex_value (c : ascii) : option N :=
  let n := N_of_ascii c in
  (if (48 <=? n) && (n <=? 57) then Some (n - 48)
   else if (65 <=? n) && (n <=? 70) then Some (n - 55)
   else if (97 <=? n) && (n <=? 102) then Some (n - 87)
   else None)%N.

(** Percent-decoding, [+] for a space. *)
Fixpoint unquote_bytes (s : string) : list N :=
  match s with
  | EmptyString => []
  | String c rest =>
      if Ascii.eqb c "+" then 32%N :: unquote_bytes rest
      else if Ascii.eqb c "%" then
        match rest with
        | String a (String b r) =>
            match hex_value a, hex_value b with
            | Some x, Some y => (16 * x + y)%N :: unquote_bytes r
            | _, _ => 37%N :: unquote_bytes rest
            end
        | _ => 37%N :: unquote_bytes rest
        end
      else N_of_ascii c :: unquote_bytes rest
  end.

(** UTF-8 decoding of code points below 256. *)
Fixpoint utf8_decode (bs : list N) : string :=
  match bs with
  | [] => ""
  | b :: rest =>
      if (b <? 128)%N then String (ascii_of_N b) (utf8_decode rest)
      else
        match rest with
        | b2 :: r =>
            String (ascii_of_N ((b - 192) * 64 + (b2 - 128))%N)
              (utf8_decode r)
        | [] => ""
        end
  end.

Definition unquote_plus (s : string) : string := utf8_decode (unquote_bytes s).

(** The text before the first [sep] and, if there is one, the text after
    it. *)
Fixpoint split_first (sep : ascii) (s : string) : string * option string :=
  match s with
  | EmptyString => ("", None)
  | String c r =>
      if Ascii.eqb c sep then ("", Some r)
      else let (a, b) := split_first sep r in (String c a, b)
  end.

(** [s.split(sep)] *)
Fixpoint split_all (sep : ascii) (s : string) : list string :=
  match s with
  | EmptyString => [""]
  | String c r =>
      if Ascii.eqb c sep then "" :: split_all sep r
      else
        match split_all sep r with
        | [] => [String c ""]
        | f :: fs => String c f :: fs
        end
  end.

Definition parse_field (field : string) : string * string :=
  let (name, v) := split_first "=" field in
  (unquote_plus name,
   match v with
   | Some v => unquote_plus v
   | None => ""
   end).

Definition parse_qsl (body : string) : list (string * string) :=
  if String.eqb body "" then [] else map parse_field (split_all "&" body).

(** No character of [s] is [sep]. *)
Fixpoint lacks (sep : ascii) (s : string) : bool :=
  match s with
  | EmptyString => true
  | String c r => negb (Ascii.eqb c sep) && lacks sep r
  end.

(** ** Vocabulary for the rest of the module *)

Declare Scope engine_scope.
Delimit Scope engine_scope with engine.
Notation "x <~ m ;; k" := (nbind m (fun x => k))
  (at level 61, m at next level, right associativity) : engine_scope.

(** The derived fields of a request in standard mode agree with its
    parameters: the body is their encoding, [Content-Length] its length,
    and [self.request] carries both. *)
Definition encoded (self : APIRequest) : Prop :=
  Encoder.urlencode (data self) = Ok (encodeddata self)
  /\ dget "Content-Length" (headers self)
     = Some (str_len (encodeddata self))
  /\ dget "Content-Type" (headers self) = Some form_type
  /\ request self
     = {| url := apibase (wiki self);
          body := encodeddata self;
          rheaders := headers self |}.

(** The parameters [__init__] leaves in [self.data]. *)
Definition init_data (w : Wiki) (d : pdict) (write : bool) : pdict :=
  let d := dset "format" (VStr "json") d in
  let d := match assertval w with
           | Some a => if write then dset "assert" a d else d
           | None => d
           end in
  if negb (dmem "maxlag" d) && (0 <=? maxlag w)
  then dset "maxlag" (VInt (maxlag w)) d else d.

(** The headers [__init__] makes for a body in standard mode. *)
Definition init_headers (w : Wiki) (enc : string) : dict string :=
  let h := dset "User-agent" (useragent w)
             [("Content-Type", form_type); ("Content-Length", str_len enc)] in
  let h := dset "Accept-Encoding" "gzip" h in
  match credentials w with
  | Some c => dset "Authorization" ("Basic " ++ c)%string h
  | None => h
  end.

(** The payload has an [error] member whose code is "maxlag". *)
Definition has_maxlag_error (c : payload) : bool :=
  match (err <- payload_index "error" c ;; subscript err "code") with
  | Ok code => is_str code "maxlag"
  | Raise _ => false
  end.

(** What [json.loads] gives is no dictionary, list or string: it raised,
    or the body was a JSON number, [true], [false] or [null], in which
    ["error" in content] raises. *)
Definition undecodable (parsed : option value) : bool :=
  match parsed with
  | None | Some VNone | Some (VBool _) | Some (VInt _) | Some (VBytes _) =>
      true
  | Some (VStr _) | Some (VList _) | Some (VDict _) => false
  end.

(** The outer keys of a [query-continue] mapping with their inner keys,
    in the order of the mapping. *)
Definition outstanding (qc : pdict) : list (string * list string) :=
  map (fun kv => (fst kv,
                  match snd kv with
                  | VDict d => dkeys d
                  | _ => []
                  end)) qc.

(** Every value of every tuple can be hashed. *)
Definition all_hashable (l : list pdict) : bool :=
  forallb (fun t => forallb (fun kv => hashable (snd kv)) t) l.

(** [u] is equal to no tuple of [a]. *)
Definition fresh_for (a : list pdict) (u : pdict) : bool :=
  negb (existsb (fun t => tuple_eqb t u) a).

(** * Concrete requests, responses and servers *)

(** No multipart encoder is installed; the requests below are not
    multipart. *)
Definition no_poster : MultipartEncoder :=
  fun _ => Raise (External "poster3").

(** A set that iterates in insertion order. *)
Definition insertion_order : SetOrder := fun s => s.

Definition site : Wiki :=
  {| apibase := "https://wiki.example/w/api.php";
     useragent := "python-wikitools3";
     maxlag := 5;
     maxwaittime := 120;
     assertval := None;
     credentials := None |}.

(** A site that gives up early: two delays, 5 and 10, are below 12. *)
Definition impatient : Wiki :=
  {| apibase := "https://wiki.example/w/api.php";
     useragent := "python-wikitools3";
     maxlag := 5;
     maxwaittime := 12;
     assertval := None;
     credentials := None |}.

Definition unbuilt (w : Wiki) : APIRequest :=
  {| sleep := 5; data := []; iswrite := false; multipart := false;
     encodeddata := ""; headers := []; wiki := w; response := None;
     request := {| url := apibase w; body := ""; rheaders := [] |};
     _continues := []; _generator := "" |}.

(** [APIRequest(w, d, write)] *)
Definition built (w : Wiki) (d : pdict) (write : bool) : APIRequest :=
  match @init no_poster w d write false with
  | Ok self => self
  | Raise _ => unbuilt w
  end.

(** A response with a JSON body, compressed as the [Accept-Encoding] of
    the request allows. *)
Definition answer (v : value) : HTTPResponse :=
  {| info := [("Content-Type", "application/json");
              ("Content-Encoding", "gzip")];
     json := Some v |}.

Definition before (todo : list outcome) : world :=
  {| script := todo; trace := [] |}.

Definition wants_xml : pdict :=
  [("action", VStr "query"); ("format", VStr "xml"); ("titles", VStr "Main Page")].

Definition edit : APIRequest :=
  built site
    [("action", VStr "edit"); ("title", VStr "Sandbox"); ("text", VStr "hello")]
    true.

Definition empty_page : HTTPResponse := answer (VDict [("batchcomplete", VStr "")]).

Definition listing : pdict :=
  [("action", VStr "query"); ("generator", VStr "allpages");
   ("prop", VStr "links")].

Definition hasty : APIRequest := built impatient listing false.

Definition patient : APIRequest := built site listing false.


Definition lagged_error (text : string) : pdict :=
  [("error", VDict [("code", VStr "maxlag"); ("info", VStr text)])].

Definition lagged : HTTPResponse :=
  answer (VDict (lagged_error "Waiting for 10.0.0.7: 7 seconds lagged")).

Definition links_page : pdict :=
  [("batchcomplete", VStr "");
   ("query", VDict [("pages", VDict [("1", VDict [("title", VStr "A")])])])].

Definition nothing : HTTPResponse := answer (VList []).

(** The legacy continuation of [generator=allpages]: one outer key, and
    an inner key of 11 characters that starts with "g". *)
Definition generator_continue : pdict :=
  [("allpages", VDict [("gapcontinue", VInt 3)])].

Definition generator_page : pdict :=
  [("query", VDict [("pages", VDict [("1", VDict [("title", VStr "A")])])]);
   ("query-continue", VDict generator_continue)].

Definition link (title : string) : pdict :=
  [("ns", VInt 0); ("title", VStr title)].

(** The same link with its fields in the other order. *)
Definition link_title_first (title : string) : pdict :=
  [("title", VStr title); ("ns", VInt 0)].

Definition page_with_links (links : list pdict) : pdict :=
  [("pageid", VInt 1); ("title", VStr "Main Page");
   ("links", VList (map VDict links))].

Definition pages_of (links : list pdict) : pdict :=
  [("1", VDict (page_with_links links))].

Definition response_with (links : list pdict) : payload :=
  APIResult [("query", VDict [("pages", VDict (pages_of links))])] [].

Definition continue1 : pdict :=
  [("plcontinue", VStr "5|0|A"); ("continue", VStr "||")].

Definition continue2 : pdict :=
  [("gapcontinue", VStr "B"); ("continue", VStr "gapcontinue||")].

Definition page1 : pdict :=
  [("continue", VDict continue1); ("query", VDict [("pages", VDict [])])].

Definition page2 : pdict :=
  [("continue", VDict continue2); ("query", VDict [("pages", VDict [])])].

Definition page3 : pdict :=
  [("batchcomplete", VStr ""); ("query", VDict [("pages", VDict [])])].

Definition three_pages : list outcome :=
  [Answers (answer (VDict page1)); Answers (answer (VDict page2));
   Answers (answer (VDict page3))].

Definition stale_body : string :=
  "action=query&generator=allpages&prop=links&format=json&maxlag=5&continue=gapcontinue%7C%7C&plcontinue=5%7C0%7CA&gapcontinue=B".

Definition fresh_body : string :=
  "action=query&generator=allpages&prop=links&format=json&maxlag=5&gapcontinue=B&continue=gapcontinue%7C%7C".

(** ** More requests and responses *)

Definition cafe : pdict :=
  [("action", VStr "query");
   ("titles", VStr ("Caf" ++ String (ascii_of_nat 233) " & bar=1"));
   ("limit", VInt 50)].

Definition two_titles : pdict :=
  [("action", VStr "query"); ("titles", VList [VStr "A"; VStr "B"])].

Definition blocked_error : pdict :=
  [("error", VDict [("code", VStr "blocked");
                    ("info", VStr "You have been blocked from editing")])].

Definition no_action : APIRequest := built site [("titles", VStr "A")] false.

(** The HTML page of a wiki whose API is switched off, not compressed:
    "MediaWiki API is not enabled for this site. ..." *)
Definition disabled : HTTPResponse :=
  {| info := [("Content-Type", "text/html")];
     json := None |}.

Definition two_props : pdict :=
  [("links", VDict [("gplcontinue_long", VStr "1|A")]);
   ("images", VDict [("imcontinue", VStr "foo")])].

Definition first_images : pdict :=
  [("query", VDict [("pages", VDict [])]); ("query-continue", VDict two_props)].

Definition two_lists : pdict :=
  [("search", VDict [("sroffset", VInt 10)]);
   ("backlinks", VDict [("blcontinue", VStr "0|12")])].

Definition hits (titles : list string) : value :=
  VList (map (fun t => VDict [("title", VStr t)]) titles).

Definition first_hits : pdict :=
  [("query", VDict [("search", hits ["A"; "B"]); ("backlinks", hits ["X"])]);
   ("query-continue", VDict two_lists)].

Definition more_hits : pdict :=
  [("query", VDict [("search", hits ["C"]); ("backlinks", hits ["Y"])])].

Definition all_hits : pdict :=
  [("query", VDict [("search", hits ["A"; "B"; "C"]);
                    ("backlinks", hits ["X"; "Y"])]);
   ("query-continue", VDict two_lists)].

Definition searching : APIRequest :=
  built site [("action", VStr "query"); ("list", VStr "search|backlinks")]
    false.

Definition search_on : APIRequest :=
  built site (dset "sroffset" (VInt 10) (data searching)) false.

(** A revision whose [slots] member is a dictionary. *)
Definition revision : pdict :=
  [("revid", VInt 7); ("slots", VDict [("main", VStr "text")])].

Definition page_with (ty : string) (entries : list pdict) : pdict :=
  [("pageid", VInt 1); (ty, VList (map VDict entries))].

Definition response_of (ty : string) (entries : list pdict) : payload :=
  APIResult
    [("query", VDict [("pages", VDict [("1", VDict (page_with ty entries))])])]
    [].

Definition two_pages (a b : list pdict) : payload :=
  APIResult
    [("query",
      VDict [("pages",
              VDict [("1", VDict (page_with "links" a));
                     ("2", VDict (page_with "links" b))])])]
    [].

(** The request object after the [continue] mapping of the first page has
    been written into it. *)
Definition after_page1 : APIRequest :=
  snd (@change_all no_poster continue1
         (set_request (request patient) patient)).

(** * Properties *)

Section Properties.

Context {poster : MultipartEncoder} {order : SetOrder}.

(** ** Dictionaries *)

Lemma dget_dset_same {V : Type} (k : string) (v : V) (d : dict V) :
  dget k (dset k v d) = Some v.
Proof.
  induction d as [|[k' v'] r IH]; simpl.
  - now rewrite String.eqb_refl.
  - destruct (String.eqb k' k) eqn:E; simpl; rewrite E; auto.
Qed.

Lemma dget_dset_other {V : Type} (k k' : string) (v : V) (d : dict V) :
  k <> k' -> dget k (dset k' v d) = dget k d.
Proof.
  intros Hne. induction d as [|[k0 v0] r IH]; simpl.
  - destruct (String.eqb k' k) eqn:E; auto.
    apply String.eqb_eq in E. congruence.
  - destruct (String.eqb k0 k') eqn:E; simpl.
    + apply String.eqb_eq in E. subst k0.
      destruct (String.eqb k' k) eqn:E'; auto.
      apply String.eqb_eq in E'. congruence.
    + now rewrite IH.
Qed.

Lemma dget_dpop_same {V : Type} (k : string) (d : dict V) :
  dget k (dpop k d) = None.
Proof.
  unfold dpop. induction d as [|[k' v'] r IH]; simpl; auto.
  destruct (String.eqb k' k) eqn:E; simpl; auto. now rewrite E.
Qed.

Lemma dget_dpop_other {V : Type} (k k' : string) (d : dict V) :
  k <> k' -> dget k (dpop k' d) = dget k d.
Proof.
  intros Hne. unfold dpop. induction d as [|[k0 v0] r IH]; simpl; auto.
  destruct (String.eqb k0 k') eqn:E; simpl.
  - apply String.eqb_eq in E. subst k0.
    destruct (String.eqb k' k) eqn:E'; auto.
    apply String.eqb_eq in E'. congruence.
  - now rewrite IH.
Qed.

(** ** The forced [format] parameter *)

Lemma init_format (w : Wiki) (d : pdict) (write multi : bool)
  (self : APIRequest) :
  init w d write multi = Ok self -> dget "format" (data self) = Some json_format.
Proof.
  unfold init. intros H.
  set (d1 := dset "format" (VStr "json") d) in *.
  set (d2 := match assertval w with
             | Some a => if write then dset "assert" a d1 else d1
             | None => d1
             end) in *.
  set (d3 := if negb (dmem "maxlag" d2) && (0 <=? maxlag w)
             then dset "maxlag" (VInt (maxlag w)) d2 else d2) in *.
  assert (H1 : dget "format" d1 = Some json_format)
    by apply dget_dset_same.
  assert (H2 : dget "format" d2 = Some json_format).
  { subst d2. destruct (assertval w); auto. destruct write; auto.
    rewrite dget_dset_other; auto. discriminate. }
  assert (H3 : dget "format" d3 = Some json_format).
  { subst d3. destruct (negb (dmem "maxlag" d2) && (0 <=? maxlag w)); auto.
    rewrite dget_dset_other; auto. discriminate. }
  destruct (if multi then _ else _) as [p|e]; simpl in H; [|discriminate].
  injection H as <-. exact H3.
Qed.

Lemma changeParam_data (param : string) (v : value) (self : APIRequest) :
  param <> "format" ->
  data (snd (changeParam param v self)) = dset param v (data self).
Proof.
  intros Hne. unfold changeParam.
  destruct (String.eqb param "format") eqn:E.
  - apply String.eqb_eq in E. contradiction.
  - unfold reencode. simpl.
    destruct (multipart self).
    + destruct (multipart_encode _) as [[datagen hdrs]|e]; simpl; auto.
      unfold pop_header; simpl.
      destruct (dget "Content-Length" (headers self)); simpl; auto.
      destruct (dget "Content-Type" _); simpl; auto.
    + destruct (Encoder.urlencode _); simpl; auto.
Qed.

(** C6.  Whatever parameters the caller passes, a request that has been
    constructed carries [format = "json"]; [changeParam("format", v)] raises
    APIError and leaves the request as it was; and no other call of
    [changeParam] touches the parameter. *)
Theorem format_always_json :
  (forall w d write multi self,
      init w d write multi = Ok self ->
      dget "format" (data self) = Some json_format)
  /\ (forall v self,
         changeParam "format" v self
         = (Raise (APIError [VStr "You can not change the result format"]),
            self))
  /\ (forall param v self,
         dget "format" (data self) = Some json_format ->
         dget "format" (data (snd (changeParam param v self)))
         = Some json_format).
Proof.
  split; [|split].
  - intros. eapply init_format; eauto.
  - intros. reflexivity.
  - intros param v self H.
    destruct (String.eqb param "format") eqn:E.
    + unfold changeParam. rewrite E. exact H.
    + apply String.eqb_neq in E. rewrite changeParam_data by assumption.
      rewrite dget_dset_other; auto.
Qed.

(** ** Transport Executor *)

Lemma getRaw_write_fails (self : APIRequest) (w : world) (what : string)
  (rest : list outcome) :
  iswrite self = true ->
  script w = Fails what :: rest ->
  getRaw self w
  = Some (Raise (CannotCatch what), self,
          {| script := rest; trace := trace w ++ [Opened (request self)] |}).
Proof.
  intros Hw Hs. unfold getRaw. rewrite Hs. simpl.
  now rewrite Hw, orb_true_r.
Qed.

Lemma set_sleep_twice (x y : Z) (self : APIRequest) :
  set_sleep x (set_sleep y self) = set_sleep x self.
Proof. reflexivity. Qed.

Lemma set_sleep_same (self : APIRequest) : set_sleep (sleep self) self = self.
Proof. now destruct self. Qed.

Lemma retries_zero (s m : Z) : m <= s -> retries s m = O.
Proof.
  intros H. unfold retries.
  assert ((m - s + 4) / 5 < 1) by (apply Z.div_lt_upper_bound; lia).
  lia.
Qed.

Lemma retries_succ (s m : Z) : s < m -> retries s m = S (retries (s + 5) m).
Proof.
  intros H. unfold retries.
  replace (m - s + 4) with ((m - (s + 5) + 4) + 1 * 5) by lia.
  rewrite Z.div_add by lia.
  assert (0 <= (m - (s + 5) + 4) / 5) by (apply Z.div_le_lower_bound; lia).
  rewrite Z2Nat.inj_add by lia. simpl. lia.
Qed.

(** The loop catches the first [retries s m] failures, whatever follows. *)
Lemma getRaw_loop_backoff (failures : list string) :
  forall self rest tr,
    iswrite self = false ->
    List.length failures = retries (sleep self) (maxwaittime (wiki self)) ->
    getRaw_loop (map Fails failures ++ rest) self tr
    = getRaw_loop rest
        (set_sleep (sleep self + 5 * Z.of_nat (List.length failures)) self)
        (tr ++ backoff (List.length failures) (request self) (sleep self)).
Proof.
  induction failures as [|what failures IH]; intros self rest tr Hw Hn.
  - simpl. rewrite Z.add_0_r, set_sleep_same, app_nil_r. reflexivity.
  - destruct (Z.lt_ge_cases (sleep self) (maxwaittime (wiki self)))
      as [Hlt|Hge].
    + rewrite retries_succ in Hn by assumption.
      cbn [map app getRaw_loop]. rewrite Hw, orb_false_r.
      replace (maxwaittime (wiki self) <=? sleep self) with false
        by (symmetry; apply Z.leb_gt; assumption).
      cbn [negb].
      rewrite IH.
      * cbn [sleep set_sleep request]. rewrite set_sleep_twice. f_equal.
        -- f_equal. cbn [List.length]. lia.
        -- rewrite <- !app_assoc. reflexivity.
      * exact Hw.
      * cbn [List.length sleep set_sleep wiki] in *. lia.
    + rewrite retries_zero in Hn by assumption. discriminate.
Qed.

(** The number of caught failures is the least [n] for which the delay
    s + 5n has reached the maximum wait time. *)
Lemma retries_least (s m : Z) :
  let n := Z.of_nat (retries s m) in
  m <= Z.max s (s + 5 * n) /\ (0 < n -> s + 5 * (n - 1) < m).
Proof.
  destruct (Z.lt_ge_cases s m) as [Hlt|Hge].
  - unfold retries.
    assert (H0 : 0 <= (m - s + 4) / 5) by (apply Z.div_le_lower_bound; lia).
    rewrite Z2Nat.id by assumption.
    pose proof (Z.div_mod (m - s + 4) 5 ltac:(lia)) as Hd.
    pose proof (Z.mod_pos_bound (m - s + 4) 5 ltac:(lia)) as Hm.
    cbv zeta. split; intros; lia.
  - rewrite retries_zero by assumption. cbv zeta. simpl. lia.
Qed.

Lemma init_sleep (w : Wiki) (d : pdict) (write multi : bool)
  (self : APIRequest) :
  init w d write multi = Ok self -> sleep self = 5.
Proof.
  unfold init. intros H.
  destruct (if multi then _ else _) as [p|e]; simpl in H; [|discriminate].
  now injection H as <-.
Qed.

(** C7, as the code has it.  A request starts with a delay of 5 seconds.
    When the transport of a request that is no write request keeps
    failing ([opener.open] raises), the loop catches the failures met while the delay is below
    the maximum wait time, [retries] many; after each of them it sleeps the
    delay of the moment plus half a second and adds 5 seconds to the delay;
    the next failure is not caught and ends the call with an exception,
    the delay having reached the maximum wait time. *)
Theorem backoff_bounded :
  (forall w d write multi self,
      init w d write multi = Ok self -> sleep self = 5)
  /\ (forall self w failures what rest,
         iswrite self = false ->
         List.length failures
         = retries (sleep self) (maxwaittime (wiki self)) ->
         script w = map Fails failures ++ Fails what :: rest ->
         let n := List.length failures in
         getRaw self w
         = Some (Raise (CannotCatch what),
                 set_sleep (sleep self + 5 * Z.of_nat n) self,
                 {| script := rest;
                    trace := trace w
                             ++ backoff n (request self) (sleep self)
                             ++ [Opened (request self)] |})
         /\ maxwaittime (wiki self) <= sleep self + 5 * Z.of_nat n).
Proof.
  split; [intros; eapply init_sleep; eauto|].
  intros self w failures what rest Hw Hn Hs n.
  assert (Hmax : maxwaittime (wiki self) <= sleep self + 5 * Z.of_nat n).
  { pose proof (retries_least (sleep self) (maxwaittime (wiki self))) as H.
    cbv zeta in H. subst n. rewrite Hn. lia. }
  split; [|exact Hmax].
  unfold getRaw. rewrite Hs, getRaw_loop_backoff by assumption.
  fold n. cbn [getRaw_loop set_sleep sleep wiki iswrite request].
  replace (maxwaittime (wiki self) <=? sleep self + 5 * Z.of_nat n)
    with true by (symmetry; apply Z.leb_le; exact Hmax).
  cbn [orb negb]. rewrite <- app_assoc. reflexivity.
Qed.

(** ** Response Decoder *)

Lemma getRaw_answers (self : APIRequest) (w : world) (r : HTTPResponse)
  (rest : list outcome) :
  script w = Answers r :: rest ->
  getRaw self w
  = Some (Ok r, set_response (Some (info r)) self,
          {| script := rest; trace := trace w ++ [Opened (request self)] |}).
Proof. intros Hs. unfold getRaw. rewrite Hs. reflexivity. Qed.






Lemma parseJSON_page (r : HTTPResponse) (self : APIRequest) (w : world)
  (page : pdict) (h : dict string) :
  response self = Some h ->
  json r = Some (VDict page) ->
  dmem "error" page = false ->
  parseJSON r self w = Some (Ok (APIResult page h), self, w).
Proof.
  intros Hr Hj He. unfold parseJSON, wrap. rewrite Hj, Hr.
  unfold examine, payload_mem. now rewrite He.
Qed.

Lemma parseJSON_empty_list (r : HTTPResponse) (self : APIRequest) (w : world)
  (h : dict string) :
  response self = Some h ->
  json r = Some (VList []) ->
  parseJSON r self w = Some (Ok (APIListResult [] h), self, w).
Proof.
  intros Hr Hj. unfold parseJSON, wrap. now rewrite Hj, Hr.
Qed.

Lemma parse_retry_page (fuel : nat) (self : APIRequest) (w : world)
  (r : HTTPResponse) (page : pdict) (rest : list outcome) :
  script w = Answers r :: rest ->
  page_response r page ->
  parse_retry (S fuel) self w
  = Some (Ok (APIResult page (info r)), set_response (Some (info r)) self,
          {| script := rest; trace := trace w ++ [Opened (request self)] |}).
Proof.
  intros Hs (Hj & Hne & He). cbn [parse_retry]. unfold nbind at 1.
  rewrite (getRaw_answers _ _ _ _ Hs). unfold nbind.
  rewrite (parseJSON_page _ _ _ page (info r)); auto.
  destruct page; [contradiction|reflexivity].
Qed.


Lemma raise_on_error_page (page : pdict) (h : dict string)
  (self : APIRequest) (w : world) :
  dmem "error" page = false ->
  raise_on_error (APIResult page h) self w = Some (Ok tt, self, w).
Proof.
  intros He. unfold raise_on_error, payload_mem. now rewrite He.
Qed.


(** C10.  When the body decodes to an empty list, [query] returns it and
    [queryGen] yields it after the one exchange, without an exception and
    without asking again; the generator then ends without another
    exchange. *)
Theorem empty_list_result_accepted :
  forall fuel self w r rest,
    script w = Answers r :: rest ->
    json r = Some (VList []) ->
    (forall querycontinue,
        (querycontinue = true -> dmem "action" (data self) = true) ->
        query (S fuel) querycontinue self w
        = Some (Ok (APIListResult [] (info r)),
                set_response (Some (info r)) self,
                {| script := rest;
                   trace := trace w ++ [Opened (request self)] |}))
    /\ (forall self1,
           changeParam "continue" (VStr "") self = (Ok tt, self1) ->
           let page := APIListResult [] (info r) in
           let self2 := set_response (Some (info r)) self1 in
           let w2 := {| script := rest;
                        trace := trace w ++ [Opened (request self1)] |} in
           next (S fuel) Unstarted self w
           = Some (Ok (Some page), Suspended page (request self), self2, w2)
           /\ next (S fuel) (Suspended page (request self)) self2 w2
              = Some (Ok None, Finished, self2, w2)).
Proof.
  intros fuel self w r rest Hs Hj.
  assert (Hloop : forall s, parse_retry (S fuel) s w
                  = Some (Ok (APIListResult [] (info r)),
                          set_response (Some (info r)) s,
                          {| script := rest;
                             trace := trace w ++ [Opened (request s)] |})).
  { intros s. cbn [parse_retry]. unfold nbind at 1.
    rewrite (getRaw_answers _ _ _ _ Hs). unfold nbind.
    rewrite (parseJSON_empty_list _ _ _ (info r)); auto. }
  split.
  - intros qc Ha. unfold query. unfold nbind at 1.
    assert (Hact : (if qc then _ <- dindex "action" (data self) ;; Ok tt
                    else Ok tt) = Ok tt).
    { destruct qc; auto. specialize (Ha eq_refl). unfold dindex, dmem in *.
      destruct (dget "action" (data self)); [reflexivity|discriminate]. }
    rewrite Hact. unfold nbind at 1. rewrite Hloop. reflexivity.
  - intros self1 Hc. cbv zeta. split.
    + cbn [next]. rewrite Hc. unfold turn, nbind. rewrite Hloop. reflexivity.
    + reflexivity.
Qed.

(** ** The modern protocol *)

(** A page without a [continue] member ends the sequence: the next
    resumption raises StopIteration and does nothing else. *)
Lemma next_stops_without_continue (fuel : nat) (d : pdict) (h : dict string)
  (reqcopy : Request) (self : APIRequest) (w : world) :
  dmem "continue" d = false ->
  next fuel (Suspended (APIResult d h) reqcopy) self w
  = Some (Ok None, Finished, self, w).
Proof. intros H. cbn [next payload_mem]. now rewrite H. Qed.

(** A resumption that hands out a page is suspended at once: the last
    thing it did is the exchange the page came from. *)
Lemma turn_yields_last_exchange (fuel : nat) (reqcopy : Request)
  (self : APIRequest) (w : world) (r : HTTPResponse) (page : pdict)
  (rest : list outcome) :
  script w = Answers r :: rest ->
  page_response r page ->
  turn (S fuel) reqcopy self w
  = Some (Ok (Some (APIResult page (info r))),
          Suspended (APIResult page (info r)) reqcopy,
          set_response (Some (info r)) self,
          {| script := rest; trace := trace w ++ [Opened (request self)] |}).
Proof.
  intros Hs Hp. unfold turn. unfold nbind at 1.
  rewrite (parse_retry_page _ _ _ r page rest) by assumption.
  unfold nbind. rewrite raise_on_error_page by apply Hp. reflexivity.
Qed.

(** What the loop of lines 208-209 leaves in [self.data]: the parameters
    the object had, not those of [reqcopy], with the members of [continue]
    written over them. *)
Lemma change_all_data (items : pdict) :
  forall self self',
    change_all items self = (Ok tt, self') ->
    data self' = dupdate (data self) items.
Proof.
  induction items as [|[param v] r IH]; intros self self' H.
  - cbn in H. now injection H as <-.
  - cbn [change_all] in H.
    destruct (changeParam param v self) as [[[]|e] self1] eqn:E;
      [|discriminate].
    apply IH in H. rewrite H. unfold dupdate. cbn [fold_left fst snd].
    f_equal.
    assert (Hne : param <> "format").
    { intros ->. unfold changeParam in E. simpl in E. discriminate. }
    pose proof (changeParam_data param v self Hne) as Hd.
    now rewrite E in Hd.
Qed.

(** The request [changeParam] leaves carries the encoding of [self.data]. *)
Lemma changeParam_request (param : string) (v : value)
  (self self' : APIRequest) :
  multipart self = false ->
  changeParam param v self = (Ok tt, self') ->
  Encoder.urlencode (dset param v (data self)) = Ok (body (request self'))
  /\ multipart self' = false.
Proof.
  intros Hm H. unfold changeParam in H.
  destruct (String.eqb param "format"); [discriminate|].
  unfold reencode in H. cbn [multipart set_data] in H. rewrite Hm in H.
  cbn [data set_data] in H.
  destruct (Encoder.urlencode (dset param v (data self))) as [enc|e];
    [|discriminate].
  injection H as <-. split; [reflexivity|exact Hm].
Qed.

(** ** The legacy protocol *)

(** With one outer key the selection indexes [keys()], which a view does
    not allow: it raises whatever the inner keys are. *)
Lemma select_single_outer (qc : pdict) :
  List.length (dkeys qc) = 1%nat -> select qc = Raise TypeError.
Proof. intros H. unfold select. now rewrite H. Qed.

Lemma inner_keys_found (qc : pdict) (k : string) (d : pdict) :
  dget k qc = Some (VDict d) -> inner_keys qc k = Ok (dkeys d).
Proof. intros H. unfold inner_keys, dindex. now rewrite H. Qed.

(** With two outer keys the scan is all the selection needs as long as one
    of them has an inner key shorter than 11 characters; when none has, it
    raises as above. *)
Lemma select_two_outer (o1 o2 : string) (d1 d2 : pdict) :
  o1 <> "" -> o2 <> "" -> o1 <> o2 ->
  let qc := [(o1, VDict d1); (o2, VDict d2)] in
  select qc
  = match first_short (dkeys d1), first_short (dkeys d2) with
    | Some k, _ => Ok (o1, k)
    | None, Some k => Ok (o2, k)
    | None, None => Raise TypeError
    end.
Proof.
  intros H1 H2 H12 qc.
  assert (E1 : inner_keys qc o1 = Ok (dkeys d1)).
  { apply inner_keys_found. simpl. now rewrite String.eqb_refl. }
  assert (E2 : inner_keys qc o2 = Ok (dkeys d2)).
  { apply inner_keys_found. simpl.
    replace (String.eqb o1 o2) with false
      by (symmetry; now apply String.eqb_neq).
    now rewrite String.eqb_refl. }
  unfold select. cbn [qc dkeys map fst List.length Nat.eqb scan].
  rewrite E1. cbn [bind].
  destruct (first_short (dkeys d1)) as [k|].
  - replace (String.eqb o1 "") with false
      by (symmetry; now apply String.eqb_neq).
    reflexivity.
  - cbn [String.eqb]. rewrite E2. cbn [bind].
    destruct (first_short (dkeys d2)) as [k|].
    + replace (String.eqb o2 "") with false
        by (symmetry; now apply String.eqb_neq).
      reflexivity.
    + reflexivity.
Qed.

Lemma dget_pop_all (k : string) (cs : list string) :
  forall d : pdict,
    dget k (fold_left (fun params ckey => dpop ckey params) cs d)
    = if existsb (String.eqb k) cs then None else dget k d.
Proof.
  induction cs as [|c cs IH]; intros d; cbn [fold_left existsb]; auto.
  rewrite IH. destruct (String.eqb k c) eqn:E.
  - apply String.eqb_eq in E. subst c. cbn [orb].
    destruct (existsb (String.eqb k) cs); auto. apply dget_dpop_same.
  - cbn [orb]. apply String.eqb_neq in E.
    destruct (existsb (String.eqb k) cs); auto.
    now apply dget_dpop_other.
Qed.

Lemma set_add_In (k c : string) (s : list string) :
  In c (set_add k s) <-> c = k \/ In c s.
Proof.
  unfold set_add. destruct (existsb (String.eqb k) s) eqn:E.
  - split; auto. intros [->|H]; auto.
    apply existsb_exists in E as (x & Hx & Hk).
    apply String.eqb_eq in Hk. now subst x.
  - rewrite in_app_iff. simpl. intuition.
Qed.

(** Lines 252-258 on their own, for whatever key reaches them: the
    generator key, the tracked set, and every parameter of the next
    request. *)
Lemma track_effect (key2 : string) (cont : value) (self : APIRequest) :
  let self' := track key2 cont self in
  _generator self'
  = (if is_generator key2 then key2 else _generator self)
  /\ _continues self'
     = (if is_generator key2 then _continues self
        else set_add key2 (_continues self))
  /\ forall k,
       dget k (data self')
       = if String.eqb k key2 then Some cont
         else if is_generator key2
                 && existsb (String.eqb k) (_continues self)
              then None
              else dget k (data self).
Proof.
  unfold track.
  destruct (is_generator key2); cbn [data set_data set_tracking _continues
    _generator andb]; (split; [reflexivity|split; [reflexivity|]]);
    intros k; destruct (String.eqb k key2) eqn:E.
  - apply String.eqb_eq in E. subst k. apply dget_dset_same.
  - apply String.eqb_neq in E. rewrite dget_dset_other by assumption.
    apply dget_pop_all.
  - apply String.eqb_eq in E. subst k. apply dget_dset_same.
  - apply String.eqb_neq in E. now apply dget_dset_other.
Qed.

(** ** Result Merger *)

Lemma scalar_eqb_refl (v : value) : hashable v = true -> scalar_eqb v v = true.
Proof.
  destruct v; simpl; intros H; try discriminate; auto.
  - now destruct b.
  - apply Z.eqb_refl.
  - apply String.eqb_refl.
  - apply String.eqb_refl.
Qed.

Lemma scalar_eqb_sym (a b : value) : scalar_eqb a b = scalar_eqb b a.
Proof.
  destruct a, b; simpl; auto using Z.eqb_sym, String.eqb_sym.
  now destruct b, b0.
Qed.

Lemma scalar_eqb_trans (a b c : value) :
  scalar_eqb a b = true -> scalar_eqb b c = true -> scalar_eqb a c = true.
Proof.
  destruct a, b; simpl; try discriminate; destruct c; simpl;
    try discriminate;
    repeat match goal with
           | x : bool |- _ => destruct x
           end;
    rewrite ?Z.eqb_eq, ?String.eqb_eq; try discriminate; auto;
    intros; subst; auto; try lia.
Qed.

Lemma tuple_eqb_refl (t : pdict) : hashable_tuple t -> tuple_eqb t t = true.
Proof.
  unfold hashable_tuple. induction t as [|[k v] r IH]; simpl; auto.
  intros H. apply andb_true_iff in H as [Hv Hr].
  now rewrite String.eqb_refl, scalar_eqb_refl, IH.
Qed.

Lemma tuple_eqb_sym (s : pdict) : forall t, tuple_eqb s t = tuple_eqb t s.
Proof.
  induction s as [|[k v] r IH]; destruct t as [|[k' v'] t']; simpl; auto.
  now rewrite String.eqb_sym, scalar_eqb_sym, IH.
Qed.

Lemma tuple_eqb_trans (s : pdict) :
  forall t u,
    tuple_eqb s t = true -> tuple_eqb t u = true -> tuple_eqb s u = true.
Proof.
  induction s as [|[k v] r IH]; destruct t as [|[k' v'] t'];
    destruct u as [|[k'' v''] u']; simpl; try discriminate; auto.
  intros H1 H2.
  apply andb_true_iff in H1 as [H1 H1r]. apply andb_true_iff in H1 as [Hk Hv].
  apply andb_true_iff in H2 as [H2 H2r].
  apply andb_true_iff in H2 as [Hk' Hv'].
  apply String.eqb_eq in Hk, Hk'. subst.
  rewrite String.eqb_refl, (scalar_eqb_trans _ _ _ Hv Hv'), (IH _ _ H1r H2r).
  reflexivity.
Qed.

Lemma set_of_incl (l : list pdict) : forall u, In u (set_of l) -> In u l.
Proof.
  induction l as [|t r IH]; simpl; auto.
  intros u [->|H]; auto. apply filter_In in H as [H _]. auto.
Qed.

Lemma set_of_covers (l : list pdict) :
  Forall hashable_tuple l ->
  forall t, In t l -> exists u, In u (set_of l) /\ tuple_eqb t u = true.
Proof.
  induction 1 as [|t0 r Ht0 Hr IH]; simpl; [contradiction|].
  intros t [->|Hin].
  - exists t. split; auto. now apply tuple_eqb_refl.
  - destruct (IH t Hin) as (u & Hu & Htu).
    destruct (tuple_eqb t0 u) eqn:E.
    + exists t0. split; auto.
      apply tuple_eqb_trans with u; auto. now rewrite tuple_eqb_sym.
    + exists u. split; auto. right. apply filter_In. split; auto.
      now rewrite E.
Qed.

Lemma set_of_distinct (l : list pdict) :
  Forall hashable_tuple l -> distinct_tuples (set_of l).
Proof.
  induction 1 as [|t0 r Ht0 Hr [IHn IHe]]; simpl.
  - split; [constructor|contradiction].
  - split.
    + constructor.
      * intros Hin. apply filter_In in Hin as [_ Hf].
        rewrite tuple_eqb_refl in Hf by assumption. discriminate.
      * now apply NoDup_filter.
    + intros a b [->|Ha] [->|Hb] Hab; auto.
      * apply filter_In in Hb as [_ Hf]. rewrite Hab in Hf. discriminate.
      * apply filter_In in Ha as [_ Hf]. rewrite tuple_eqb_sym, Hab in Hf.
        discriminate.
      * apply filter_In in Ha as [Ha _]. apply filter_In in Hb as [Hb _].
        auto.
Qed.

Lemma mapM_item_tuple (l : list pdict) :
  Forall hashable_tuple l -> mapM item_tuple (map VDict l) = Ok l.
Proof.
  induction 1 as [|t r Ht Hr IH]; simpl; auto.
  unfold hashable_tuple in Ht. now rewrite Ht, IH.
Qed.

Lemma get_pages_shape (p : payload) (d : pdict) (h : dict string)
  (q pages : pdict) :
  has_pages p d h q pages -> get_pages p = Ok (VDict pages).
Proof.
  intros (-> & Hq & Hp). unfold get_pages, payload_index, dindex.
  rewrite Hq. cbn [bind subscript]. unfold dindex. now rewrite Hp.
Qed.

Lemma set_page_shape (p : payload) (d : pdict) (h : dict string)
  (q pages : pdict) (key : string) (page : value) :
  has_pages p d h q pages ->
  set_page p key page = Ok (with_pages d h q (dset key page pages)).
Proof.
  intros H. unfold set_page. rewrite (get_pages_shape _ _ _ _ _ H).
  destruct H as (-> & Hq & Hp). cbn [bind set_item set_query_item].
  unfold dindex. rewrite Hq. reflexivity.
Qed.

Lemma set_prop_shape (p : payload) (d : pdict) (h : dict string)
  (q pages rp : pdict) (key ty : string) (v : value) :
  has_pages p d h q pages ->
  dget key pages = Some (VDict rp) ->
  set_prop p key ty v
  = Ok (with_pages d h q (dset key (VDict (dset ty v rp)) pages)).
Proof.
  intros H Hk. unfold set_prop. rewrite (get_pages_shape _ _ _ _ _ H).
  cbn [bind subscript]. unfold dindex. rewrite Hk. cbn [bind set_item].
  now apply set_page_shape.
Qed.

(** When the type is no member of [new["query"]], the merge goes through
    the pages of the response one by one. *)
Lemma resultCombine_pages (ty : string) (old new : payload) (nd : pdict)
  (nh : dict string) (nq newpages : pdict) :
  has_pages new nd nh nq newpages ->
  dmem ty nq = false ->
  resultCombine ty old new = combine_pages ty new old (dkeys newpages).
Proof.
  intros (-> & Hq & Hp) Hty. unfold resultCombine, payload_index, dindex.
  rewrite Hq. cbn [bind value_mem]. rewrite Hty.
  cbn [subscript]. unfold dindex. now rewrite Hp.
Qed.

Lemma combine_single_page (ty key : string) (old new : payload) :
  combine_pages ty new old [key] = combine_page ty new old key.
Proof. cbn [combine_pages]. now destruct (combine_page ty new old key). Qed.

(** Python iterates a set in an order of its own, but over the elements
    of the set, each once. *)
Hypothesis set_iter_perm : forall s, Permutation (set_iter s) s.

Lemma set_iter_distinct (s : list pdict) :
  distinct_tuples s -> distinct_tuples (set_iter s).
Proof.
  intros [Hn He]. split.
  - eapply Permutation_NoDup; [|exact Hn].
    apply Permutation_sym, set_iter_perm.
  - intros a b Ha Hb.
    apply He; eapply Permutation_in; eauto using set_iter_perm.
Qed.

(** C9, as the code has it.  The response [new] holds one page, [key], and
    its [query] member has no member [ty].  A page the aggregate does not
    have is added as it is; a page that lacks the property in the response
    leaves the aggregate untouched; a property only the response has is
    taken over; and when both have the property, with entries that are
    dictionaries of hashable values, the entries of the aggregate become
    the union of the two sets of item tuples: every entry of either list
    is there up to equality of item tuples, nothing else is there, and no
    two entries have equal item tuples.  Item tuples are equal when they
    list the same fields with equal values in the same order. *)
Theorem per_page_merge :
  forall ty key ret new d h q pages nd nh nq newpage,
    has_pages ret d h q pages ->
    has_pages new nd nh nq [(key, newpage)] ->
    dmem ty nq = false ->
    (dget key pages = None ->
       resultCombine ty ret new
       = Ok (with_pages d h q (dset key newpage pages)))
    /\ (forall np,
           dmem key pages = true ->
           newpage = VDict np ->
           dmem ty np = false ->
           resultCombine ty ret new = Ok ret)
    /\ (forall rp np x,
           dget key pages = Some (VDict rp) ->
           newpage = VDict np ->
           dget ty rp = None ->
           dget ty np = Some x ->
           resultCombine ty ret new
           = Ok (with_pages d h q
                   (dset key (VDict (dset ty x rp)) pages)))
    /\ (forall rp np rs ns,
           dget key pages = Some (VDict rp) ->
           newpage = VDict np ->
           dget ty rp = Some (VList (map VDict rs)) ->
           dget ty np = Some (VList (map VDict ns)) ->
           Forall hashable_tuple rs ->
           Forall hashable_tuple ns ->
           let out := set_iter (set_of (rs ++ ns)) in
           resultCombine ty ret new
           = Ok (with_pages d h q
                   (dset key
                      (VDict (dset ty (VList (map VDict out)) rp)) pages))
           /\ (forall t, In t (rs ++ ns) ->
                         exists u, In u out /\ tuple_eqb t u = true)
           /\ (forall u, In u out -> In u (rs ++ ns))
           /\ distinct_tuples out).
Proof.
  intros ty key ret new d h q pages nd nh nq newpage Hret Hnew Hty.
  rewrite (resultCombine_pages ty ret new _ _ _ _ Hnew Hty).
  cbn [dkeys map fst]. rewrite combine_single_page.
  unfold combine_page.
  rewrite (get_pages_shape _ _ _ _ _ Hret), (get_pages_shape _ _ _ _ _ Hnew).
  cbn [bind value_mem subscript].
  assert (Hpage : dindex key [(key, newpage)] = Ok newpage).
  { unfold dindex. cbn [dget]. now rewrite String.eqb_refl. }
  rewrite Hpage. cbn [bind]. clear Hpage.
  split; [|split; [|split]].
  - intros Hk. unfold dmem. rewrite Hk. cbn [negb].
    now apply set_page_shape.
  - intros np Hk -> Hnp. rewrite Hk. cbn [negb value_mem bind].
    now rewrite Hnp.
  - intros rp np x Hk -> Hrp Hnp. unfold dmem, dindex. rewrite Hk.
    cbn [negb value_mem bind subscript]. unfold dmem, dindex.
    rewrite Hnp, Hrp. cbn [negb bind].
    eapply set_prop_shape; eauto.
  - intros rp np rs ns Hk -> Hrp Hnp Hrs Hns.
    assert (Hall : Forall hashable_tuple (rs ++ ns))
      by (apply Forall_app; auto).
    split; [|split; [|split]].
    + unfold dmem, dindex.
      rewrite Hk. cbn [negb value_mem bind subscript]. unfold dmem, dindex.
      rewrite Hnp, Hrp. cbn [negb bind]. unfold merge_entries.
      cbn [iterate bind]. rewrite !mapM_item_tuple by assumption.
      cbn [bind]. eapply set_prop_shape; eauto.
    + intros t Ht.
      destruct (set_of_covers _ Hall t Ht) as (u & Hu & Htu).
      exists u. split; auto.
      eapply Permutation_in; [apply Permutation_sym, set_iter_perm|exact Hu].
    + intros u Hu. apply set_of_incl.
      eapply Permutation_in; [apply set_iter_perm|exact Hu].
    + now apply set_iter_distinct, set_of_distinct.
Qed.

(** *** [resultCombine] on a response with several pages *)

Lemma dset_same_value {V : Type} (k : string) (v : V) (d : dict V) :
  dget k d = Some v -> dset k v d = d.
Proof.
  induction d as [|[k' v'] r IH]; simpl; [discriminate|].
  destruct (String.eqb k' k) eqn:E.
  - intros H. now injection H as ->.
  - intros H. now rewrite IH.
Qed.

Lemma with_pages_same (p : payload) (d : pdict) (h : dict string)
  (q pages : pdict) :
  has_pages p d h q pages -> with_pages d h q pages = p.
Proof.
  intros (-> & Hq & Hp). unfold with_pages.
  now rewrite (dset_same_value _ _ _ Hp), (dset_same_value _ _ _ Hq).
Qed.

Lemma with_pages_shape (d : pdict) (h : dict string) (q pages : pdict) :
  has_pages (with_pages d h q pages)
    (dset "query" (VDict (dset "pages" (VDict pages) q)) d) h
    (dset "pages" (VDict pages) q) pages.
Proof.
  split; [reflexivity|]. split; apply dget_dset_same.
Qed.

(** One turn of the loop puts the merged page under its key and touches
    nothing else. *)
Lemma combine_page_merge_page (ty key : string) (ret new : payload)
  (d : pdict) (h : dict string) (q pages nd : pdict) (nh : dict string)
  (nq newpages : pdict) (newpage : value) :
  has_pages ret d h q pages ->
  has_pages new nd nh nq newpages ->
  dget key newpages = Some newpage ->
  combine_page ty new ret key
  = (p <- merge_page ty (dget key pages) newpage ;;
     Ok (with_pages d h q (dset key p pages))).
Proof.
  intros Hret Hnew Hk. unfold combine_page.
  rewrite (get_pages_shape _ _ _ _ _ Hret), (get_pages_shape _ _ _ _ _ Hnew).
  cbn [bind value_mem subscript]. unfold dindex at 1. rewrite Hk.
  cbn [bind]. unfold dmem, dindex.
  destruct (dget key pages) as [retpage|] eqn:Hold; cbn [negb merge_page bind].
  - destruct (value_mem ty newpage) as [innew|e]; cbn [bind]; [|reflexivity].
    destruct innew; cbn [negb bind].
    + destruct (value_mem ty retpage) as [inret|e]; cbn [bind];
        [|reflexivity].
      assert (Hset : forall v,
                 set_prop ret key ty v
                 = (p <- set_item retpage ty v ;;
                    Ok (with_pages d h q (dset key p pages)))).
      { intros v. unfold set_prop.
        rewrite (get_pages_shape _ _ _ _ _ Hret).
        cbn [bind subscript]. unfold dindex. rewrite Hold. cbn [bind].
        destruct (set_item retpage ty v) as [p|e]; cbn [bind];
          [|reflexivity].
        now apply set_page_shape. }
      destruct inret; cbn [negb bind].
      * destruct (subscript retpage ty) as [retl|e]; cbn [bind];
          [|reflexivity].
        destruct (subscript newpage ty) as [newl|e]; cbn [bind];
          [|reflexivity].
        destruct (merge_entries retl newl) as [merged|e]; cbn [bind];
          [|reflexivity].
        apply Hset.
      * destruct (subscript newpage ty) as [x|e]; cbn [bind]; [|reflexivity].
        apply Hset.
    + rewrite (dset_same_value _ _ _ Hold).
      now rewrite (with_pages_same _ _ _ _ _ Hret).
  - now apply set_page_shape.
Qed.

Lemma combine_pages_pagewise (ty : string) (new : payload) (nd : pdict)
  (nh : dict string) (nq newpages : pdict) (h : dict string)
  (keys : list string) :
  has_pages new nd nh nq newpages ->
  NoDup keys ->
  (forall k, In k keys -> exists np, dget k newpages = Some np) ->
  forall ret ret' d q pages,
    has_pages ret d h q pages ->
    combine_pages ty new ret keys = Ok ret' ->
    exists d' q' pages',
      has_pages ret' d' h q' pages'
      /\ (forall k, ~ In k keys -> dget k pages' = dget k pages)
      /\ (forall k, In k keys ->
                    exists np p,
                      dget k newpages = Some np
                      /\ merge_page ty (dget k pages) np = Ok p
                      /\ dget k pages' = Some p).
Proof.
  intros Hnew Hnd. induction Hnd as [|key r Hnotin Hnd IH];
    intros Hall ret ret' d q pages Hret H.
  - cbn in H. injection H as <-. exists d, q, pages.
    split; [exact Hret|]. split; [reflexivity|contradiction].
  - cbn [combine_pages] in H.
    destruct (Hall key (or_introl eq_refl)) as (np & Hnp).
    rewrite (combine_page_merge_page ty key ret new _ _ _ _ _ _ _ _ np
               Hret Hnew Hnp) in H.
    destruct (merge_page ty (dget key pages) np) as [p|e] eqn:Hp;
      cbn [bind] in H; [|discriminate].
    destruct (IH (fun k Hk => Hall k (or_intror Hk)) _ _ _ _ _
                (with_pages_shape d h q (dset key p pages)) H)
      as (d' & q' & pages' & Hshape & Hout & Hin).
    exists d', q', pages'. split; [exact Hshape|]. split.
    + intros k Hk. rewrite Hout by (intros Hr; apply Hk; now right).
      apply dget_dset_other. intros ->. apply Hk. now left.
    + intros k [<-|Hk].
      * exists np, p. split; [exact Hnp|]. split; [exact Hp|].
        rewrite (Hout key Hnotin). apply dget_dset_same.
      * destruct (Hin k Hk) as (np' & p' & Hnp' & Hp' & Hget).
        exists np', p'. split; [exact Hnp'|]. split; [|exact Hget].
        rewrite dget_dset_other in Hp'; auto.
        intros ->. contradiction.
Qed.

Lemma dget_of_key {V : Type} (k : string) (d : dict V) :
  In k (dkeys d) -> exists v, dget k d = Some v.
Proof.
  induction d as [|[k' v'] r IH]; simpl; [contradiction|].
  destruct (String.eqb k' k) eqn:E; eauto.
  intros [->|H]; auto. rewrite String.eqb_refl in E. discriminate.
Qed.

Lemma dget_not_key {V : Type} (k : string) (d : dict V) :
  ~ In k (dkeys d) -> dget k d = None.
Proof.
  induction d as [|[k' v'] r IH]; simpl; auto.
  intros H. destruct (String.eqb k' k) eqn:E.
  - apply String.eqb_eq in E. tauto.
  - apply IH. tauto.
Qed.

(** X22.  A response with any number of pages is merged page by page: a
    page of the aggregate the response does not have stays as it is, and
    every page of the response is merged with the page the aggregate had
    under its key, whatever the other pages are. *)
Lemma resultCombine_pagewise (ty : string) (old new ret' : payload)
  (d : pdict) (h : dict string) (q pages nd : pdict) (nh : dict string)
  (nq newpages : pdict) :
  has_pages old d h q pages ->
  has_pages new nd nh nq newpages ->
  dmem ty nq = false ->
  NoDup (dkeys newpages) ->
  resultCombine ty old new = Ok ret' ->
  exists d' q' pages',
    has_pages ret' d' h q' pages'
    /\ forall key,
         match dget key newpages with
         | None => dget key pages' = dget key pages
         | Some newpage =>
             exists p, merge_page ty (dget key pages) newpage = Ok p
                       /\ dget key pages' = Some p
         end.
Proof.
  intros Hold Hnew Hty Hnd H.
  rewrite (resultCombine_pages ty old new _ _ _ _ Hnew Hty) in H.
  destruct (combine_pages_pagewise ty new _ _ _ _ h (dkeys newpages) Hnew Hnd
              (fun k Hk => dget_of_key k newpages Hk) _ _ _ _ _ Hold H)
    as (d' & q' & pages' & Hshape & Hout & Hin).
  exists d', q', pages'. split; [exact Hshape|].
  intros key. destruct (dget key newpages) as [newpage|] eqn:E.
  - assert (Hk : In key (dkeys newpages)).
    { destruct (in_dec string_dec key (dkeys newpages)) as [Hi|Hn]; auto.
      rewrite (dget_not_key _ _ Hn) in E. discriminate. }
    destruct (Hin key Hk) as (np & p & Hnp & Hp & Hget).
    rewrite E in Hnp. injection Hnp as <-. eauto.
  - apply Hout. intros Hk. destruct (dget_of_key _ _ Hk) as (v & Hv).
    congruence.
Qed.

(** ** Further facts about the engine *)

(** The exception of a write request leaves [query] as it left [__getRaw]:
    the loops above the transport do not catch it either. *)
Lemma query_write_fails_once (fuel : nat) (querycontinue : bool)
  (self : APIRequest) (w : world) (what : string) (rest : list outcome) :
  iswrite self = true ->
  script w = Fails what :: rest ->
  dmem "action" (data self) = true ->
  query (S fuel) querycontinue self w
  = Some (Raise (CannotCatch what), self,
          {| script := rest; trace := trace w ++ [Opened (request self)] |}).
Proof.
  intros Hw Hs Ha. unfold query. unfold nbind at 1.
  assert (Hact : (if querycontinue
                  then _ <- dindex "action" (data self) ;; Ok tt
                  else Ok tt) = Ok tt).
  { destruct querycontinue; auto. unfold dindex, dmem in *.
    destruct (dget "action" (data self)); [reflexivity|discriminate]. }
  rewrite Hact. unfold nbind at 1. cbn [parse_retry]. unfold nbind at 1.
  now rewrite (getRaw_write_fails self w what rest Hw Hs).
Qed.

(** C3.  A write request whose exchange raises is not tried again: the
    handler is [except None], no sleep is made, the delay stays as it was,
    and the call ends after the one [open], in [__getRaw] and in [query]
    alike; whatever the exchange gives, a write request is opened once.
    But the exception is not the one of the transport, as the spec has it:
    Python 3 raises TypeError at [except None], and the exception of the
    transport is no more than its context. *)
Theorem write_request_not_retried :
  (forall self w o rest,
      iswrite self = true ->
      script w = o :: rest ->
      (forall what,
          o = Fails what ->
          getRaw self w
          = Some (Raise (CannotCatch what), self,
                  {| script := rest;
                     trace := trace w ++ [Opened (request self)] |}))
      /\ (exists r self' w',
             getRaw self w = Some (r, self', w')
             /\ script w' = rest
             /\ trace w' = trace w ++ [Opened (request self)]))
  /\ (forall fuel querycontinue self w what rest,
         iswrite self = true ->
         script w = Fails what :: rest ->
         dmem "action" (data self) = true ->
         query (S fuel) querycontinue self w
         = Some (Raise (CannotCatch what), self,
                 {| script := rest;
                    trace := trace w ++ [Opened (request self)] |}))
  /\ ~ propagates_the_transport_exception.
Proof.
  split; [|split].
  - intros self w o rest Hw Hs. split.
    + intros what ->. now apply getRaw_write_fails.
    + unfold getRaw. rewrite Hs. simpl. rewrite Hw, orb_true_r. simpl.
      destruct o as [what|r]; eauto 7.
  - intros. now apply query_write_fails_once.
  - intros H.
    pose proof (H edit (before [Fails "URLError"]) "URLError" []
                  eq_refl eq_refl) as E.
    rewrite (getRaw_write_fails edit (before [Fails "URLError"]) "URLError"
               [] eq_refl eq_refl) in E.
    discriminate E.
Qed.

(** The constructor copies the parameters it is given; the names it
    writes itself are [format], [assert] and [maxlag]. *)
Lemma init_keeps_parameters (w : Wiki) (d : pdict) (write multi : bool)
  (self : APIRequest) (k : string) :
  init w d write multi = Ok self ->
  k <> "format" -> k <> "assert" -> k <> "maxlag" ->
  dget k (data self) = dget k d.
Proof.
  unfold init. intros H Hf Ha Hm.
  destruct (if multi then _ else _) as [p|e]; simpl in H; [|discriminate].
  injection H as <-. cbn [data].
  assert (H1 : dget k (dset "format" (VStr "json") d) = dget k d)
    by now apply dget_dset_other.
  set (d1 := dset "format" (VStr "json") d) in *.
  assert (H2 : dget k (match assertval w with
                       | Some a => if write then dset "assert" a d1 else d1
                       | None => d1
                       end) = dget k d).
  { destruct (assertval w); auto. destruct write; auto.
    now rewrite dget_dset_other. }
  set (d2 := match assertval w with
             | Some a => if write then dset "assert" a d1 else d1
             | None => d1
             end) in *.
  destruct (negb (dmem "maxlag" d2) && (0 <=? maxlag w)); auto.
  now rewrite dget_dset_other.
Qed.

(** After the loop of lines 208-209 the request carries the encoding of
    [self.data] with the members of [continue] written over it, whatever
    request had been restored before. *)
Lemma change_all_request (items : pdict) :
  forall self self',
    multipart self = false ->
    items <> [] ->
    change_all items self = (Ok tt, self') ->
    Encoder.urlencode (dupdate (data self) items) = Ok (body (request self')).
Proof.
  induction items as [|[param v] r IH]; intros self self' Hm Hne H;
    [contradiction|].
  cbn [change_all] in H.
  destruct (changeParam param v self) as [[[]|e] self1] eqn:E;
    [|discriminate].
  destruct (changeParam_request _ _ _ _ Hm E) as [Hbody Hm1].
  assert (Hd : data self1 = dset param v (data self)).
  { assert (Hp : param <> "format").
    { intros ->. unfold changeParam in E. simpl in E. discriminate. }
    pose proof (changeParam_data param v self Hp) as Hd.
    now rewrite E in Hd. }
  unfold dupdate. cbn [fold_left fst snd]. rewrite <- Hd.
  destruct r as [|kv r'].
  - cbn in H. injection H as <-. cbn [fold_left]. now rewrite Hd.
  - apply (IH self1 self' Hm1); [discriminate|exact H].
Qed.

End Properties.

(** * The properties on concrete requests *)

Lemma insertion_order_perm (s : list pdict) :
  Permutation (insertion_order s) s.
Proof. apply Permutation_refl. Defined.

(** ** C6 on a request that asks for XML *)

Lemma format_always_json_witness :
  @init no_poster site wants_xml false false
  = Ok (built site wants_xml false)
  /\ dget "format" (data (built site wants_xml false)) = Some json_format.
Proof.
  assert (H : @init no_poster site wants_xml false false
              = Ok (built site wants_xml false)) by reflexivity.
  split; [exact H|].
  exact (proj1 (@format_always_json no_poster) site wants_xml false false
           (built site wants_xml false) H).
Defined.

(** ** C3 on an edit *)

Lemma write_request_not_retried_witness :
  iswrite edit = true
  /\ getRaw edit (before [Fails "URLError"; Answers empty_page])
     = Some (Raise (CannotCatch "URLError"), edit,
             {| script := [Answers empty_page];
                trace := [Opened (request edit)] |})
  /\ @query no_poster insertion_order 1 true edit
       (before [Fails "URLError"; Answers empty_page])
     = Some (Raise (CannotCatch "URLError"), edit,
             {| script := [Answers empty_page];
                trace := [Opened (request edit)] |}).
Proof.
  split; [reflexivity|]. split.
  - exact (proj1 (proj1 (@write_request_not_retried no_poster insertion_order)
                    edit (before [Fails "URLError"; Answers empty_page])
                    (Fails "URLError") [Answers empty_page]
                    eq_refl eq_refl)
             "URLError" eq_refl).
  - exact (proj1 (proj2 (@write_request_not_retried no_poster
                           insertion_order))
             O true edit (before [Fails "URLError"; Answers empty_page])
             "URLError" [Answers empty_page] eq_refl eq_refl eq_refl).
Defined.

(** ** C7 on a site that waits 12 seconds at most *)

Lemma backoff_bounded_witness :
  iswrite hasty = false
  /\ List.length ["timed out"; "timed out"]
     = retries (sleep hasty) (maxwaittime (wiki hasty))
  /\ getRaw hasty
       (before (map Fails ["timed out"; "timed out"]
                ++ Fails "refused" :: [Answers empty_page]))
     = Some (Raise (CannotCatch "refused"), set_sleep 15 hasty,
             {| script := [Answers empty_page];
                trace := [Opened (request hasty); Slept 11;
                          Opened (request hasty); Slept 21;
                          Opened (request hasty)] |}).
Proof.
  split; [reflexivity|]. split; [reflexivity|].
  exact (proj1 (proj2 (@backoff_bounded no_poster) hasty
                  (before (map Fails ["timed out"; "timed out"]
                           ++ Fails "refused" :: [Answers empty_page]))
                  ["timed out"; "timed out"] "refused" [Answers empty_page]
                  eq_refl eq_refl eq_refl)).
Defined.

Lemma backoff_sleeps_half_a_second_more : ~ sleeps_the_current_delay.
Proof.
  intros H.
  destruct (H (built site listing false)
              (before [Fails "timed out"; Answers empty_page])
              "timed out" empty_page [] eq_refl eq_refl eq_refl)
    as (self' & w' & Hrun & Htr).
  vm_compute in Hrun. inversion Hrun; subst.
  vm_compute in Htr. discriminate.
Qed.

(** ** C4 on a lagged server *)


Lemma links_page_is_page : page_response (answer (VDict links_page)) links_page.
Proof. split; [reflexivity|split; [discriminate|reflexivity]]. Defined.



(** ** C10 on an empty list *)

Lemma empty_list_result_accepted_witness :
  script (before [Answers nothing]) = [Answers nothing]
  /\ json nothing = Some (VList [])
  /\ @query no_poster insertion_order 1 true patient (before [Answers nothing])
     = Some (Ok (APIListResult [] (info nothing)),
             set_response (Some (info nothing)) patient,
             {| script := []; trace := [Opened (request patient)] |}).
Proof.
  split; [reflexivity|]. split; [reflexivity|].
  exact (proj1 (@empty_list_result_accepted no_poster insertion_order O
                  patient (before [Answers nothing]) nothing []
                  eq_refl eq_refl)
           true (fun _ => eq_refl)).
Defined.

(** ** C9 on two responses for page 1 *)

Lemma links_hashable (titles : list string) :
  Forall hashable_tuple (map link titles).
Proof. induction titles; constructor; auto. reflexivity. Defined.

Lemma per_page_merge_witness :
  has_pages (response_with [link "A"; link "B"])
    [("query", VDict [("pages", VDict (pages_of [link "A"; link "B"]))])] []
    [("pages", VDict (pages_of [link "A"; link "B"]))]
    (pages_of [link "A"; link "B"])
  /\ Forall hashable_tuple [link "A"; link "B"]
  /\ @resultCombine insertion_order "links"
       (response_with [link "A"; link "B"])
       (response_with [link "B"; link "C"])
     = Ok (response_with [link "A"; link "B"; link "C"]).
Proof.
  split; [repeat split|]. split; [exact (links_hashable ["A"; "B"])|].
  exact (proj1
           (proj2 (proj2 (proj2
              (@per_page_merge insertion_order insertion_order_perm
                 "links" "1"
                 (response_with [link "A"; link "B"])
                 (response_with [link "B"; link "C"])
                 _ _ _ _ _ _ _ _
                 (conj eq_refl (conj eq_refl eq_refl))
                 (conj eq_refl (conj eq_refl eq_refl))
                 eq_refl)))
              (page_with_links [link "A"; link "B"])
              (page_with_links [link "B"; link "C"])
              [link "A"; link "B"] [link "B"; link "C"]
              eq_refl eq_refl eq_refl eq_refl
              (links_hashable ["A"; "B"]) (links_hashable ["B"; "C"]))).
Defined.

(** The entry the aggregate has and the same entry with its fields the
    other way round are both in the merged list. *)
Lemma merge_keeps_reordered_entry :
  entries_of (response_with [link "A"]) "1" "links"
  = Ok (VList [VDict (link "A")])
  /\ match @resultCombine insertion_order "links"
           (response_with [link "A"])
           (response_with [link_title_first "A"]) with
     | Ok merged =>
         entries_of merged "1" "links"
         = Ok (VList [VDict (link "A"); VDict (link_title_first "A")])
     | Raise _ => False
     end
  /\ entry_eqb (link "A") (link_title_first "A") = true.
Proof. repeat split. Qed.

(** ** C1 on a generator with a property *)

(** C1.  [generator=allpages] with [prop=links]: the first page continues
    the links ([plcontinue]), the second the generator ([gapcontinue]).
    The three pages are yielded and the sequence ends after the page
    without [continue], but the third request still carries the
    [plcontinue] of the first page: it is built from [self.data], which
    keeps every parameter [changeParam] has ever set, and not from the
    restored request. *)
Theorem queryGen_keeps_earlier_continuation :
  match @consume no_poster 4 1 Unstarted patient (before three_pages) [] with
  | Some (Ok pages, g, self, w) =>
      map (fun p => match p with
                    | APIResult d _ => d
                    | _ => []
                    end) pages = [page1; page2; page3]
      /\ g = Finished
      /\ script w = []
      /\ nth_error (bodies (trace w)) 2 = Some stale_body
      /\ dget "plcontinue" (data self) = Some (VStr "5|0|A")
  | _ => False
  end
  /\ restored_body (data patient) continue2 = Ok fresh_body
  /\ stale_body <> fresh_body.
Proof.
  split; [vm_compute; repeat split|].
  split; [reflexivity|discriminate].
Qed.

(** ** C2 on the one continuation key of a property *)

(** C2.  For [{"images": {"imcontinue": "foo"}}] the spec selects
    (images, imcontinue); the code raises TypeError at
    [possiblecontinues[0]].  With two outer keys of which only the second
    has a short inner key, code and spec agree. *)
Theorem select_single_key_raises :
  select [("images", VDict [("imcontinue", VStr "foo")])] = Raise TypeError
  /\ selectContinuationKey [("images", ["imcontinue"])]
     = Some ("images", "imcontinue")
  /\ select [("links", VDict [("gplcontinue_long", VStr "1|A")]);
             ("images", VDict [("imcontinue", VStr "foo")])]
     = Ok ("images", "imcontinue")
  /\ selectContinuationKey [("links", ["gplcontinue_long"]);
                            ("images", ["imcontinue"])]
     = Some ("images", "imcontinue").
Proof. repeat split. Qed.

(** Whatever the selection returns has an inner key shorter than 11
    characters: the other ways out index a view. *)
Lemma first_short_length (keylist : list string) (key : string) :
  first_short keylist = Some key -> (String.length key < 11)%nat.
Proof.
  induction keylist as [|k r IH]; simpl; [discriminate|].
  destruct (String.length k <? 11)%nat eqn:E; auto.
  intros H. injection H as <-. now apply Nat.ltb_lt.
Qed.

Lemma scan_short (qc : pdict) (possible : list string) :
  forall key1 key2 chosen,
    scan qc possible key1 key2 = Ok (Some chosen) ->
    key1 = "" ->
    (String.length (snd chosen) < 11)%nat.
Proof.
  induction possible as [|posskey r IH]; intros key1 key2 chosen H Hk;
    [discriminate|].
  cbn [scan] in H. destruct (inner_keys qc posskey) as [keylist|e];
    [|discriminate].
  cbn [bind] in H. destruct (first_short keylist) as [key|] eqn:E.
  - destruct (String.eqb posskey "") eqn:Ep.
    + eapply IH; eauto. now apply String.eqb_eq.
    + injection H as <-. eapply first_short_length; eauto.
  - subst key1. cbn [String.eqb] in H. eapply IH; eauto.
Qed.

Lemma select_only_short (qc : pdict) (key1 key2 : string) :
  select qc = Ok (key1, key2) -> (String.length key2 < 11)%nat.
Proof.
  unfold select. destruct (List.length (dkeys qc) =? 1)%nat; [discriminate|].
  destruct (scan qc (dkeys qc) "" "") as [[chosen|]|e] eqn:E;
    try discriminate.
  cbn [bind]. intros H. injection H as ->.
  exact (scan_short _ _ _ _ _ E eq_refl).
Qed.

(** ** C8 on the continuation of a generator *)

(** C8.  Lines 252-258 do what the spec says with the key they are given:
    a key of 11 characters or more that starts with "g" becomes
    [_generator], the tracked set stays, the parameter of every tracked key
    is removed and every other parameter kept; any other key joins the
    tracked set and no parameter is removed; in both cases the parameter of
    the key is set to the continuation value.  But no generator key ever
    reaches those lines.  What the selection of lines 220-247 returns has
    an inner key shorter than 11 characters, and on a mapping with one
    outer key it raises TypeError.  So for
    [{"allpages": {"gapcontinue": 3}}], where "gapcontinue" is a generator
    key, [query] ends with TypeError after its one exchange, [_generator]
    is still empty, and the follow-up request is never made. *)
Theorem generator_key_never_selected :
  (forall key2 cont self,
      let self' := track key2 cont self in
      _generator self'
      = (if is_generator key2 then key2 else _generator self)
      /\ (forall c, In c (_continues self') <->
                    In c (_continues self)
                    \/ (is_generator key2 = false /\ c = key2))
      /\ (forall k,
             dget k (data self')
             = if String.eqb k key2 then Some cont
               else if is_generator key2
                       && existsb (String.eqb k) (_continues self)
                    then None
                    else dget k (data self)))
  /\ (forall qc key1 key2,
         select qc = Ok (key1, key2) -> is_generator key2 = false)
  /\ (forall qc,
         List.length (dkeys qc) = 1%nat -> select qc = Raise TypeError)
  /\ is_generator "gapcontinue" = true
  /\ select generator_continue = Raise TypeError
  /\ @query no_poster insertion_order 2 true patient
       (before [Answers (answer (VDict generator_page))])
     = Some (Raise TypeError,
             set_response (Some (info (answer (VDict generator_page))))
               patient,
             {| script := []; trace := [Opened (request patient)] |})
  /\ _generator (set_response (Some (info (answer (VDict generator_page))))
                   patient) = "".
Proof.
  split; [|split; [|split; [|split; [|split; [|split]]]]].
  - intros key2 cont self self'.
    destruct (track_effect key2 cont self) as (Hg & Hc & Hd).
    fold self' in Hg, Hc, Hd.
    split; [exact Hg|]. split; [|exact Hd].
    intros c. rewrite Hc. destruct (is_generator key2).
    + split; [auto|]. intros [H|[H _]]; [exact H|discriminate].
    + rewrite set_add_In. split.
      * intros [->|H]; auto.
      * intros [H|[_ ->]]; auto.
  - intros qc key1 key2 H. unfold is_generator.
    apply andb_false_iff. left. apply Nat.leb_gt.
    exact (select_only_short _ _ _ H).
  - exact select_single_outer.
  - reflexivity.
  - reflexivity.
  - vm_compute. reflexivity.
  - reflexivity.
Qed.

Lemma generator_key_never_selected_witness :
  select two_props = Ok ("images", "imcontinue")
  /\ is_generator "imcontinue" = false.
Proof.
  split; [reflexivity|].
  exact (proj1 (proj2 generator_key_never_selected)
           two_props "images" "imcontinue" eq_refl).
Defined.

(** ** C5 on a list of titles *)

Lemma encode_pairs_simple (query : pdict) :
  forallb (fun kv => is_simple (snd kv)) query = true ->
  Encoder.encode_pairs query
  = Ok (flat_map (fun kv => encode_pair_spec (fst kv) (snd kv)) query).
Proof.
  induction query as [|[k v] r IH]; simpl; auto.
  intros H. apply andb_true_iff in H as [Hv Hr]. rewrite (IH Hr).
  destruct v; try discriminate; reflexivity.
Qed.

Lemma encode_pairs_raises (query : pdict) :
  forallb (fun kv => is_simple (snd kv)) query = false ->
  Encoder.encode_pairs query = Raise AttributeError.
Proof.
  induction query as [|[k v] r IH]; simpl; [discriminate|].
  intros H. apply andb_false_iff in H as [Hv|Hr].
  - destruct v; try discriminate; reflexivity.
  - rewrite (IH Hr). destruct v; reflexivity.
Qed.

(** C5.  Text, integers and booleans are encoded as the spec says; a
    mapping with any other value, a sequence or [None] or [bytes], is not
    encoded at all: [urlencode] raises AttributeError at [v.type(str)]. *)
Theorem urlencode_sequence_raises :
  Encoder.urlencode
    [("action", VStr "query"); ("titles", VList [VStr "A"; VStr "B"])]
  = Raise AttributeError
  /\ urlencode_spec
       [("action", VStr "query"); ("titles", VList [VStr "A"; VStr "B"])]
     = "action=query&titles=A&titles=B"
  /\ (forall query,
         Encoder.urlencode query
         = if forallb (fun kv => is_simple (snd kv)) query
           then Ok (urlencode_spec query)
           else Raise AttributeError).
Proof.
  split; [reflexivity|]. split; [reflexivity|].
  intros query. unfold Encoder.urlencode, urlencode_spec.
  destruct (forallb (fun kv => is_simple (snd kv)) query) eqn:E.
  - now rewrite encode_pairs_simple.
  - now rewrite encode_pairs_raises.
Qed.

(** ** The encoder on text and numbers *)

Lemma unquote_bytes_quote_char (c : ascii) (s : string) :
  unquote_bytes (Encoder.quote_char c ++ s)
  = Encoder.utf8_char c ++ unquote_bytes s.
Proof.
  destruct c as [[] [] [] [] [] [] [] []]; reflexivity.
Qed.

Lemma utf8_decode_char (c : ascii) (bs : list N) :
  utf8_decode (Encoder.utf8_char c ++ bs) = String c (utf8_decode bs).
Proof.
  destruct c as [[] [] [] [] [] [] [] []]; reflexivity.
Qed.

Lemma lacks_amp_quote_char (c : ascii) (s : string) :
  lacks "&" (Encoder.quote_char c ++ s) = lacks "&" s.
Proof.
  destruct c as [[] [] [] [] [] [] [] []]; reflexivity.
Qed.

Lemma lacks_eq_quote_char (c : ascii) (s : string) :
  lacks "=" (Encoder.quote_char c ++ s) = lacks "=" s.
Proof.
  destruct c as [[] [] [] [] [] [] [] []]; reflexivity.
Qed.

(** [unquote_plus] undoes [quote_plus] on the text of the model, whose
    code points are below 256: no character is lost, also from 128 to 255,
    where a character travels as two bytes. *)
Lemma unquote_plus_quote_plus (s : string) :
  unquote_plus (Encoder.quote_plus s) = s.
Proof.
  unfold unquote_plus. induction s as [|c r IH]; [reflexivity|].
  cbn [Encoder.quote_plus].
  now rewrite unquote_bytes_quote_char, utf8_decode_char, IH.
Qed.

Lemma lacks_quote_plus (s : string) :
  lacks "&" (Encoder.quote_plus s) = true
  /\ lacks "=" (Encoder.quote_plus s) = true.
Proof.
  induction s as [|c r [IH1 IH2]]; [split; reflexivity|].
  cbn [Encoder.quote_plus].
  now rewrite lacks_amp_quote_char, lacks_eq_quote_char.
Qed.

Lemma lacks_app (sep : ascii) (s t : string) :
  lacks sep (s ++ t) = lacks sep s && lacks sep t.
Proof.
  induction s as [|c r IH]; simpl; auto. rewrite IH. apply andb_assoc.
Qed.

Lemma split_first_found (sep : ascii) (s t : string) :
  lacks sep s = true ->
  split_first sep (s ++ String sep t) = (s, Some t).
Proof.
  induction s as [|c r IH]; simpl.
  - now rewrite Ascii.eqb_refl.
  - intros H. apply andb_true_iff in H as [Hc Hr].
    apply negb_true_iff in Hc. now rewrite Hc, (IH Hr).
Qed.

Lemma split_all_one (sep : ascii) (s : string) :
  lacks sep s = true -> split_all sep s = [s].
Proof.
  induction s as [|c r IH]; simpl; auto.
  intros H. apply andb_true_iff in H as [Hc Hr].
  apply negb_true_iff in Hc. now rewrite Hc, (IH Hr).
Qed.

Lemma split_all_more (sep : ascii) (s t : string) :
  lacks sep s = true ->
  split_all sep (s ++ String sep t) = s :: split_all sep t.
Proof.
  induction s as [|c r IH]; simpl.
  - now rewrite Ascii.eqb_refl.
  - intros H. apply andb_true_iff in H as [Hc Hr].
    apply negb_true_iff in Hc. now rewrite Hc, (IH Hr).
Qed.

Lemma split_all_concat (fields : list string) :
  Forall (fun f => lacks "&" f = true) fields ->
  fields <> [] ->
  split_all "&" (String.concat "&" fields) = fields.
Proof.
  induction 1 as [|f r Hf Hr IH]; [contradiction|]. intros _.
  destruct r as [|g r'].
  - now apply split_all_one.
  - change (String.concat "&" (f :: g :: r'))
      with (f ++ String "&" (String.concat "&" (g :: r')))%string.
    rewrite split_all_more by assumption.
    now rewrite IH.
Qed.

Lemma parse_field_of (kv : string * string) : parse_field (field_of kv) = kv.
Proof.
  destruct kv as [k v]. unfold parse_field, field_of. cbn [fst snd].
  change ("=" ++ Encoder.quote_plus v)%string
    with (String "=" (Encoder.quote_plus v)).
  rewrite split_first_found by apply lacks_quote_plus.
  now rewrite !unquote_plus_quote_plus.
Qed.

Lemma field_of_lacks_amp (kv : string * string) :
  lacks "&" (field_of kv) = true.
Proof.
  unfold field_of. rewrite !lacks_app.
  now rewrite (proj1 (lacks_quote_plus (fst kv))),
    (proj1 (lacks_quote_plus (snd kv))).
Qed.

Lemma encode_pairs_fields (query : pdict) :
  forallb (fun kv => is_simple (snd kv)) query = true ->
  Encoder.encode_pairs query = Ok (map field_of (as_text query)).
Proof.
  induction query as [|[k v] r IH]; simpl; auto.
  intros H. apply andb_true_iff in H as [Hv Hr]. rewrite (IH Hr).
  destruct v; try discriminate; reflexivity.
Qed.

Lemma concat_not_empty (f : string) (fields : list string) :
  f <> "" -> String.concat "&" (f :: fields) <> "".
Proof.
  intros Hf. destruct fields as [|g r]; [exact Hf|].
  change (String.concat "&" (f :: g :: r))
    with (f ++ String "&" (String.concat "&" (g :: r)))%string.
  destruct f; [contradiction|discriminate].
Qed.

Lemma field_of_not_empty (kv : string * string) : field_of kv <> "".
Proof.
  unfold field_of. destruct (Encoder.quote_plus (fst kv)); discriminate.
Qed.

(** X1.  For a mapping whose names and values are text with code points
    below 256 (the text of the model), integers and booleans, the body
    decodes to the pairs that went in, in their order, names and texts
    character by character (a number comes back as its decimal text, a
    boolean as "True" or "False").  Text with code points from 256 on, and
    lone surrogates, on which [quote_plus] raises, are not covered. *)
Lemma urlencode_roundtrip_simple (query : pdict) :
  forallb (fun kv => is_simple (snd kv)) query = true ->
  exists body,
    Encoder.urlencode query = Ok body /\ parse_qsl body = as_text query.
Proof.
  intros H. exists (String.concat "&" (map field_of (as_text query))).
  unfold Encoder.urlencode. rewrite (encode_pairs_fields _ H).
  split; [reflexivity|]. unfold parse_qsl.
  destruct (as_text query) as [|kv r] eqn:E; [reflexivity|].
  cbn [map].
  replace (String.eqb (String.concat "&" (field_of kv :: map field_of r)) "")
    with false.
  - rewrite split_all_concat.
    + cbn [map]. rewrite parse_field_of. f_equal.
      rewrite map_map. rewrite <- (map_id r) at 2.
      apply map_ext. intros a. apply parse_field_of.
    + constructor; [apply field_of_lacks_amp|].
      apply Forall_forall. intros f Hin.
      apply in_map_iff in Hin as (a & <- & _). apply field_of_lacks_amp.
    + discriminate.
  - symmetry. apply String.eqb_neq. apply concat_not_empty.
    apply field_of_not_empty.
Qed.

(** * More of the module *)

Section More.

Context {poster : MultipartEncoder} {order : SetOrder}.

Hypothesis set_iter_perm : forall s, Permutation (set_iter s) s.

(** ** The constructor and [changeParam] *)

Lemma simple_of_all (query : pdict) (k : string) (v : value) :
  forallb (fun kv => is_simple (snd kv)) query = true ->
  dget k query = Some v ->
  is_simple v = true.
Proof.
  induction query as [|[k' v'] r IH]; simpl; [discriminate|].
  intros H. apply andb_true_iff in H as [Hv Hr].
  destruct (String.eqb k' k); auto. intros E. now injection E as <-.
Qed.

Lemma urlencode_other_value (query : pdict) (k : string) (v : value) :
  dget k query = Some v ->
  is_simple v = false ->
  Encoder.urlencode query = Raise AttributeError.
Proof.
  intros Hk Hv. unfold Encoder.urlencode.
  rewrite encode_pairs_raises; [reflexivity|].
  destruct (forallb (fun kv => is_simple (snd kv)) query) eqn:E; auto.
  rewrite (simple_of_all _ _ _ E Hk) in Hv. discriminate.
Qed.

Lemma init_data_of (w : Wiki) (d : pdict) (write multi : bool)
  (self : APIRequest) :
  init w d write multi = Ok self ->
  data self = init_data w d write
  /\ iswrite self = write /\ multipart self = multi /\ wiki self = w.
Proof.
  unfold init, init_data. intros H.
  destruct (if multi then _ else _) as [p|e]; simpl in H; [|discriminate].
  injection H as <-. repeat split.
Qed.

Lemma init_standard (w : Wiki) (d : pdict) (write : bool) :
  init w d write false
  = match Encoder.urlencode (init_data w d write) with
    | Raise e => Raise e
    | Ok enc =>
        Ok {| sleep := 5; data := init_data w d write; iswrite := write;
              multipart := false; encodeddata := enc;
              headers := init_headers w enc; wiki := w; response := None;
              request := {| url := apibase w; body := enc;
                            rheaders := init_headers w enc |};
              _continues := []; _generator := "" |}
    end.
Proof.
  unfold init, init_data, init_headers.
  destruct (Encoder.urlencode _); reflexivity.
Qed.

Lemma init_data_assert (w : Wiki) (d : pdict) (write : bool) :
  dget "assert" (init_data w d write)
  = match assertval w with
    | Some a => if write then Some a else dget "assert" d
    | None => dget "assert" d
    end.
Proof.
  unfold init_data.
  set (d1 := dset "format" (VStr "json") d).
  assert (H1 : dget "assert" d1 = dget "assert" d)
    by (apply dget_dset_other; discriminate).
  set (d2 := match assertval w with
             | Some a => if write then dset "assert" a d1 else d1
             | None => d1
             end).
  assert (H2 : dget "assert" d2
               = match assertval w with
                 | Some a => if write then Some a else dget "assert" d
                 | None => dget "assert" d
                 end).
  { subst d2. destruct (assertval w); auto. destruct write; auto.
    apply dget_dset_same. }
  destruct (negb (dmem "maxlag" d2) && (0 <=? maxlag w)); auto.
  rewrite dget_dset_other; [exact H2|discriminate].
Qed.

Lemma init_data_maxlag (w : Wiki) (d : pdict) (write : bool) :
  dget "maxlag" (init_data w d write)
  = match dget "maxlag" d with
    | Some v => Some v
    | None => if 0 <=? maxlag w then Some (VInt (maxlag w)) else None
    end.
Proof.
  unfold init_data.
  set (d1 := dset "format" (VStr "json") d).
  assert (H1 : dget "maxlag" d1 = dget "maxlag" d)
    by (apply dget_dset_other; discriminate).
  set (d2 := match assertval w with
             | Some a => if write then dset "assert" a d1 else d1
             | None => d1
             end).
  assert (H2 : dget "maxlag" d2 = dget "maxlag" d).
  { subst d2. destruct (assertval w); auto. destruct write; auto.
    rewrite dget_dset_other; [exact H1|discriminate]. }
  unfold dmem. rewrite H2.
  destruct (dget "maxlag" d) as [v|] eqn:E; cbn [negb andb].
  - now rewrite H2.
  - destruct (0 <=? maxlag w).
    + apply dget_dset_same.
    + now rewrite H2.
Qed.

Lemma init_data_other (w : Wiki) (d : pdict) (write : bool) (k : string) :
  k <> "format" -> k <> "assert" -> k <> "maxlag" ->
  dget k (init_data w d write) = dget k d.
Proof.
  intros Hf Ha Hm. unfold init_data.
  set (d1 := dset "format" (VStr "json") d).
  assert (H1 : dget k d1 = dget k d) by now apply dget_dset_other.
  set (d2 := match assertval w with
             | Some a => if write then dset "assert" a d1 else d1
             | None => d1
             end).
  assert (H2 : dget k d2 = dget k d).
  { subst d2. destruct (assertval w); auto. destruct write; auto.
    now rewrite dget_dset_other. }
  destruct (negb (dmem "maxlag" d2) && (0 <=? maxlag w)); auto.
  now rewrite dget_dset_other.
Qed.

(** X2.  What the constructor does to the parameters besides forcing
    [format]: [assert] is written only for a write request of a wiki that
    has an assert value, and then over whatever the caller passed;
    [maxlag] is the caller's when the caller passed one, else the wiki's
    when that is not negative, else absent; every other parameter is the
    caller's. *)
Theorem init_parameters :
  forall w d write multi self,
    init w d write multi = Ok self ->
    (forall k, k <> "format" -> k <> "assert" -> k <> "maxlag" ->
               dget k (data self) = dget k d)
    /\ dget "assert" (data self)
       = match assertval w with
         | Some a => if write then Some a else dget "assert" d
         | None => dget "assert" d
         end
    /\ dget "maxlag" (data self)
       = match dget "maxlag" d with
         | Some v => Some v
         | None => if 0 <=? maxlag w then Some (VInt (maxlag w)) else None
         end
    /\ iswrite self = write.
Proof.
  intros w d write multi self H.
  destruct (init_data_of _ _ _ _ _ H) as (Hd & Hw & _ & _). rewrite Hd.
  split; [intros; now apply init_data_other|].
  split; [apply init_data_assert|].
  split; [apply init_data_maxlag|exact Hw].
Qed.

(** X3.  A request in standard mode cannot be constructed with a
    parameter whose value is a list, a dictionary, [None] or [bytes]: the
    constructor ends with the AttributeError of [urlencode].  ([format]
    and, for a write request, [assert] are written over before the
    encoding, so a value passed under those names may not be looked
    at.) *)
Theorem init_rejects_other_values :
  forall w d write k v,
    dget k d = Some v ->
    is_simple v = false ->
    k <> "format" -> k <> "assert" ->
    init w d write false = Raise AttributeError.
Proof.
  intros w d write k v Hk Hv Hf Ha.
  assert (Hd : dget k (init_data w d write) = Some v).
  { destruct (string_dec k "maxlag") as [->|Hm].
    - rewrite init_data_maxlag, Hk. reflexivity.
    - now rewrite init_data_other. }
  rewrite init_standard.
  now rewrite (urlencode_other_value _ _ _ Hd Hv).
Qed.

Lemma changeParam_standard (param : string) (v : value)
  (self : APIRequest) :
  multipart self = false ->
  param <> "format" ->
  changeParam param v self
  = match Encoder.urlencode (dset param v (data self)) with
    | Raise e => (Raise e, set_data (dset param v (data self)) self)
    | Ok enc =>
        let h := dset "Content-Type" form_type
                   (dset "Content-Length" (str_len enc) (headers self)) in
        (Ok tt,
         set_request {| url := apibase (wiki self); body := enc;
                        rheaders := h |}
           (set_headers h
              (set_encodeddata enc
                 (set_data (dset param v (data self)) self))))
    end.
Proof.
  intros Hm Hp. unfold changeParam.
  replace (String.eqb param "format") with false
    by (symmetry; now apply String.eqb_neq).
  unfold reencode. cbn [multipart set_data data]. rewrite Hm.
  destruct (Encoder.urlencode (dset param v (data self))); reflexivity.
Qed.

(** X4.  In standard mode the derived fields follow the parameters: after
    the constructor, and after every [changeParam] that returns, the body
    is the encoding of [self.data], [Content-Length] is the length of the
    body, and [self.request] carries that body and those headers. *)
Theorem body_follows_parameters :
  (forall w d write self,
      init w d write false = Ok self ->
      encoded self /\ multipart self = false)
  /\ (forall param v self self',
         multipart self = false ->
         changeParam param v self = (Ok tt, self') ->
         encoded self' /\ multipart self' = false
         /\ data self' = dset param v (data self)).
Proof.
  split.
  - intros w d write self H. rewrite init_standard in H.
    destruct (Encoder.urlencode (init_data w d write)) as [enc|e] eqn:E;
      [|discriminate].
    injection H as <-.
    split; [|reflexivity]. unfold encoded.
    cbn [data encodeddata headers request wiki].
    split; [exact E|]. unfold init_headers.
    destruct (credentials w); repeat split;
      repeat (rewrite dget_dset_other by discriminate); reflexivity.
  - intros param v self self' Hm H.
    assert (Hp : param <> "format").
    { intros ->. unfold changeParam in H. simpl in H. discriminate. }
    rewrite (changeParam_standard _ _ _ Hm Hp) in H.
    destruct (Encoder.urlencode (dset param v (data self))) as [enc|e] eqn:E;
      [|discriminate].
    injection H as <-. split; [|split; [exact Hm|reflexivity]].
    unfold encoded. cbn [data encodeddata headers request wiki set_request
      set_headers set_encodeddata set_data].
    split; [exact E|]. split; [|split; [apply dget_dset_same|reflexivity]].
    rewrite dget_dset_other by discriminate. apply dget_dset_same.
Qed.

(** X5.  A [changeParam] that fails in the encoding is not undone: the
    new value stays in [self.data], while body, headers and
    [self.request] are those of before, so the request no longer agrees
    with its parameters. *)
Theorem failed_changeParam_keeps_value :
  forall param v self,
    multipart self = false ->
    param <> "format" ->
    is_simple v = false ->
    changeParam param v self
    = (Raise AttributeError, set_data (dset param v (data self)) self).
Proof.
  intros param v self Hm Hp Hv.
  rewrite (changeParam_standard _ _ _ Hm Hp).
  now rewrite (urlencode_other_value _ param v (dget_dset_same _ _ _) Hv).
Qed.

Lemma set_multipart_same (self : APIRequest) :
  set_multipart (multipart self) self = self.
Proof. now destruct self. Qed.

(** X6.  [setMultipart] never touches [self.request]: the request that
    goes out after it is the one encoded before, until a [changeParam]
    builds a new one.  On a request in standard mode whose derived fields
    agree with its parameters, [setMultipart(False)] changes nothing. *)
Theorem setMultipart_keeps_request :
  (forall multi self, request (snd (setMultipart multi self)) = request self)
  /\ (forall self,
         encoded self ->
         multipart self = false ->
         setMultipart false self = (Ok tt, self)).
Proof.
  split.
  - intros multi self. unfold setMultipart, reencode. destruct multi.
    + cbn [data set_multipart].
      destruct (multipart_encode (data self)) as [[datagen hdrs]|e];
        [|reflexivity].
      unfold pop_header. cbn [headers set_multipart].
      destruct (dget "Content-Length" (headers self)); [|reflexivity].
      cbn [headers set_headers].
      destruct (dget "Content-Type" _); reflexivity.
    + cbn [data set_multipart].
      destruct (Encoder.urlencode (data self)); reflexivity.
  - intros self (He & Hl & Ht & _) Hm. unfold setMultipart, reencode.
    cbn [data set_multipart]. rewrite He.
    cbn [headers set_encodeddata set_headers set_multipart].
    rewrite (dset_same_value _ _ _ Hl), (dset_same_value _ _ _ Ht).
    f_equal. destruct self. cbn in *. now subst.
Qed.

(** ** Transport and decoder *)

Lemma retries_positive (s m : Z) : retries s m <> O -> s < m.
Proof.
  intros H. destruct (Z.lt_ge_cases s m) as [Hlt|Hge]; auto.
  now rewrite retries_zero in H.
Qed.

Lemma getRaw_loop_catches (failures : list string) :
  forall self rest tr,
    iswrite self = false ->
    (List.length failures
     <= retries (sleep self) (maxwaittime (wiki self)))%nat ->
    getRaw_loop (map Fails failures ++ rest) self tr
    = getRaw_loop rest
        (set_sleep (sleep self + 5 * Z.of_nat (List.length failures)) self)
        (tr ++ backoff (List.length failures) (request self) (sleep self)).
Proof.
  induction failures as [|what failures IH]; intros self rest tr Hw Hn.
  - simpl. rewrite Z.add_0_r, set_sleep_same, app_nil_r. reflexivity.
  - assert (Hlt : sleep self < maxwaittime (wiki self)).
    { apply retries_positive. cbn [List.length] in Hn. lia. }
    rewrite retries_succ in Hn by assumption.
    cbn [map app getRaw_loop]. rewrite Hw, orb_false_r.
    replace (maxwaittime (wiki self) <=? sleep self) with false
      by (symmetry; apply Z.leb_gt; assumption).
    cbn [negb].
    rewrite IH.
    + cbn [sleep set_sleep request]. rewrite set_sleep_twice. f_equal.
      * f_equal. cbn [List.length]. lia.
      * rewrite <- !app_assoc. reflexivity.
    + exact Hw.
    + cbn [List.length sleep set_sleep wiki] in *. lia.
Qed.

(** X7.  When the transport of a request that is no write request fails
    a few times ([opener.open] raises, no more often than the delay
    allows) and then answers,
    [__getRaw] returns the answer after one sleep per failure.  The delay
    is not reset: the 5 seconds added per failure stay in [self.sleep] for
    the later calls on the same object. *)
Theorem getRaw_recovers :
  forall self w failures r rest,
    iswrite self = false ->
    (List.length failures
     <= retries (sleep self) (maxwaittime (wiki self)))%nat ->
    script w = map Fails failures ++ Answers r :: rest ->
    let n := List.length failures in
    getRaw self w
    = Some (Ok r,
            set_response (Some (info r))
              (set_sleep (sleep self + 5 * Z.of_nat n) self),
            {| script := rest;
               trace := trace w
                        ++ backoff n (request self) (sleep self)
                        ++ [Opened (request self)] |}).
Proof.
  intros self w failures r rest Hw Hn Hs n.
  unfold getRaw. rewrite Hs, getRaw_loop_catches by assumption.
  fold n. cbn [getRaw_loop request set_sleep]. rewrite <- app_assoc.
  reflexivity.
Qed.

Lemma examine_content (maxwait : Z) (content c : payload) :
  examine maxwait content = Content c ->
  c = content /\ has_maxlag_error c = false.
Proof.
  unfold examine, has_maxlag_error.
  destruct (payload_mem "error" content) as [[]|e] eqn:Hm; try discriminate.
  - destruct (err <- payload_index "error" content ;; subscript err "code")
      as [code|e] eqn:Hc; [|discriminate].
    destruct (is_str code "maxlag") eqn:Hl.
    + destruct (err <- payload_index "error" content ;; subscript err "info")
        as [[]|]; try discriminate.
      destruct (search_seconds s); [|discriminate].
      destruct (half _ <? 0); discriminate.
    + intros H. injection H as <-. now rewrite Hc.
  - intros H. injection H as <-. split; [reflexivity|].
    destruct content as [|d h|l h|s]; cbn in *; try reflexivity.
    injection Hm as Hm. unfold dindex. unfold dmem in Hm.
    destruct (dget "error" d); [discriminate|reflexivity].
Qed.

Lemma parseJSON_no_maxlag (r : HTTPResponse) (self self' : APIRequest)
  (w w' : world) (c : payload) :
  parseJSON r self w = Some (Ok c, self', w') ->
  has_maxlag_error c = false.
Proof.
  assert (Hres : forall s0 w0,
             rescue_clause r s0 w0 = Some (Ok c, self', w') ->
             has_maxlag_error c = false).
  { intros s0 w0. unfold rescue_clause, throw.
    destruct (gzipped (info r)); discriminate. }
  unfold parseJSON. destruct (json r) as [parsed|]; [|apply Hres].
  destruct (wrap self parsed) as [content|]; [|apply Hres].
  destruct (examine (maxwaittime (wiki self)) content) as [c0|lag|] eqn:E;
    [| |apply Hres].
  - intros H. injection H as <- _ _.
    now destruct (examine_content _ _ _ E).
  - intros H. now injection H as <- _ _.
Qed.

(** X8.  Whatever leaves the loop of lines 169-174 (and 194-199) is never
    a payload whose error code is "maxlag": the decoder answers those with
    [False] and the loop asks again, so [query] and [queryGen] never raise
    APIError for server lag. *)
Theorem maxlag_never_leaves_the_loop :
  forall fuel self w c self' w',
    parse_retry fuel self w = Some (Ok c, self', w') ->
    has_maxlag_error c = false.
Proof.
  induction fuel as [|fuel IH]; intros self w c self' w' H; [discriminate|].
  cbn [parse_retry] in H. unfold nbind at 1 in H.
  destruct (getRaw self w) as [[[[r|e] s1] w1]|]; try discriminate.
  unfold nbind in H.
  destruct (parseJSON r s1 w1) as [[[[data|e] s2] w2]|] eqn:Hp;
    try discriminate.
  pose proof (parseJSON_no_maxlag _ _ _ _ _ _ Hp) as Hd.
  destruct (falsy data).
  - destruct data; try (eapply IH; exact H).
    unfold ret in H. now injection H as <- _ _.
  - unfold ret in H. now injection H as <- _ _.
Qed.

Lemma query_prologue (querycontinue : bool) (self : APIRequest) :
  dmem "action" (data self) = true ->
  (if querycontinue then _ <- dindex "action" (data self) ;; Ok tt
   else Ok tt) = Ok tt.
Proof.
  intros Ha. destruct querycontinue; auto. unfold dindex, dmem in *.
  destruct (dget "action" (data self)); [reflexivity|discriminate].
Qed.

Lemma parseJSON_error (r : HTTPResponse) (self : APIRequest) (w : world)
  (d e : pdict) (h : dict string) (code : value) :
  response self = Some h ->
  json r = Some (VDict d) ->
  dget "error" d = Some (VDict e) ->
  dget "code" e = Some code ->
  is_str code "maxlag" = false ->
  parseJSON r self w = Some (Ok (APIResult d h), self, w).
Proof.
  intros Hr Hj He Hc Hl. unfold parseJSON, wrap. rewrite Hj, Hr.
  unfold examine, payload_mem, payload_index, dmem, dindex. rewrite He.
  cbn [bind subscript]. unfold dindex. now rewrite Hc, Hl.
Qed.

(** X9.  A response whose [error] member has a code other than "maxlag"
    ends [query] after the one exchange, without retry or sleep: with
    UserBlocked for the code "blocked" on a write request, with
    APIError(code, info) otherwise, and with KeyError when the error has
    no [info] member. *)
Theorem error_response_raises :
  forall fuel querycontinue self w r rest d e code,
    script w = Answers r :: rest ->
    json r = Some (VDict d) ->
    dget "error" d = Some (VDict e) ->
    dget "code" e = Some code ->
    is_str code "maxlag" = false ->
    dmem "action" (data self) = true ->
    query (S fuel) querycontinue self w
    = Some (Raise (match dget "info" e with
                   | Some text =>
                       if iswrite self && is_str code "blocked"
                       then UserBlocked text
                       else APIError [code; text]
                   | None => KeyError "info"
                   end),
            set_response (Some (info r)) self,
            {| script := rest; trace := trace w ++ [Opened (request self)] |}).
Proof.
  intros fuel qc self w r rest d e code Hs Hj He Hc Hl Ha.
  unfold query. unfold nbind at 1. rewrite (query_prologue _ _ Ha).
  unfold nbind at 1. cbn [parse_retry]. unfold nbind at 1.
  rewrite (getRaw_answers _ _ _ _ Hs). unfold nbind at 1.
  rewrite (parseJSON_error _ _ _ d e (info r) code); auto.
  assert (Hf : falsy (APIResult d (info r)) = false).
  { destruct d; [discriminate|reflexivity]. }
  rewrite Hf. unfold ret. unfold nbind at 1.
  unfold raise_on_error, payload_mem, payload_index, dmem, dindex.
  rewrite He. cbn [bind subscript iswrite set_response]. unfold dindex.
  rewrite Hc. cbn [bind].
  destruct (iswrite self); cbn [andb bind].
  - destruct (is_str code "blocked"); destruct (dget "info" e); reflexivity.
  - destruct (dget "info" e); reflexivity.
Qed.

(** X10.  With [querycontinue] (the default) [query] reads
    [self.data["action"]] before anything else: a request without an
    [action] parameter ends with KeyError and no exchange is made.  With
    [querycontinue=False] the parameter is not looked at, and the same
    request is sent and its page returned. *)
Theorem query_needs_action :
  forall fuel self w r rest page,
    dget "action" (data self) = None ->
    script w = Answers r :: rest ->
    page_response r page ->
    query (S fuel) true self w = Some (Raise (KeyError "action"), self, w)
    /\ query (S fuel) false self w
       = Some (Ok (APIResult page (info r)),
               set_response (Some (info r)) self,
               {| script := rest;
                  trace := trace w ++ [Opened (request self)] |}).
Proof.
  intros fuel self w r rest page H Hs Hp. split.
  - unfold query. unfold nbind at 1. unfold dindex. now rewrite H.
  - unfold query. unfold nbind at 1. unfold nbind at 1.
    rewrite (parse_retry_page _ _ _ r page rest Hs Hp).
    unfold nbind at 1. rewrite raise_on_error_page by apply Hp.
    unfold nbind, lift, payload_mem.
    destruct (dmem "query-continue" page); reflexivity.
Qed.

Lemma parseJSON_empty_dict (r : HTTPResponse) (self : APIRequest) (w : world)
  (h : dict string) :
  response self = Some h ->
  json r = Some (VDict []) ->
  parseJSON r self w = Some (Ok (APIResult [] h), self, w).
Proof.
  intros Hr Hj. unfold parseJSON, wrap. now rewrite Hj, Hr.
Qed.

(** X11.  An empty JSON object is not taken for a result: unlike the empty
    list, it makes the loop send the same request again at once, without a
    sleep, and the next page is what [query] returns. *)
Theorem empty_object_is_asked_again :
  forall fuel querycontinue self w r good page rest,
    script w = Answers r :: Answers good :: rest ->
    json r = Some (VDict []) ->
    page_response good page ->
    dmem "action" (data self) = true ->
    dmem "query-continue" page = false ->
    query (S (S fuel)) querycontinue self w
    = Some (Ok (APIResult page (info good)),
            set_response (Some (info good)) self,
            {| script := rest;
               trace := trace w ++ [Opened (request self);
                                    Opened (request self)] |}).
Proof.
  intros fuel qc self w r good page rest Hs Hj Hg Ha Hq.
  unfold query. unfold nbind at 1. rewrite (query_prologue _ _ Ha).
  unfold nbind at 1.
  assert (Hloop : parse_retry (S (S fuel)) self w
                  = parse_retry (S fuel) (set_response (Some (info r)) self)
                      {| script := Answers good :: rest;
                         trace := trace w ++ [Opened (request self)] |}).
  { cbn [parse_retry]. unfold nbind at 1.
    rewrite (getRaw_answers _ _ _ _ Hs). unfold nbind at 1.
    rewrite (parseJSON_empty_dict _ _ _ (info r)); auto. }
  rewrite Hloop.
  rewrite (parse_retry_page _ _ _ good page rest); auto.
  unfold nbind at 1. rewrite raise_on_error_page by apply Hg.
  unfold nbind, lift, payload_mem. rewrite Hq.
  cbn [andb set_response request trace script ret].
  rewrite <- app_assoc. reflexivity.
Qed.

Lemma parseJSON_undecodable (r : HTTPResponse) (self : APIRequest)
  (w : world) :
  undecodable (json r) = true ->
  parseJSON r self w = rescue_clause r self w.
Proof.
  unfold parseJSON, undecodable, wrap.
  destruct (json r) as [[]|]; try discriminate; intros _;
    destruct (response self); reflexivity.
Qed.

(** The [except] clause never raises APIDisabled and never returns. *)
Lemma rescue_clause_raises (r : HTTPResponse) (self : APIRequest)
  (w : world) :
  rescue_clause r self w
  = Some (Raise (if gzipped (info r) then TypeError
                 else UnsupportedOperation), self, w).
Proof. unfold rescue_clause, throw. now destruct (gzipped (info r)). Qed.

Lemma parseJSON_not_disabled (r : HTTPResponse) (self self' : APIRequest)
  (w w' : world) (e : exn) :
  parseJSON r self w = Some (Raise e, self', w') ->
  e = (if gzipped (info r) then TypeError else UnsupportedOperation)
  /\ self' = self /\ w' = w.
Proof.
  assert (Hres : rescue_clause r self w = Some (Raise e, self', w') ->
                 e = (if gzipped (info r) then TypeError
                      else UnsupportedOperation)
                 /\ self' = self /\ w' = w).
  { rewrite rescue_clause_raises. intros H. inversion H. auto. }
  unfold parseJSON. destruct (json r) as [parsed|]; [|exact Hres].
  destruct (wrap self parsed) as [content|]; [|exact Hres].
  destruct (examine (maxwaittime (wiki self)) content); try exact Hres;
    discriminate.
Qed.

(** X12.  A body that is no JSON, or a JSON number, boolean or null, ends
    the loop of [query] and [queryGen] after that one exchange, with the
    exception the [except] clause of [__parseJSON] raises itself: TypeError
    when the response was gzip-encoded, io.UnsupportedOperation when it was
    not.  The request is not sent again, and whatever the body says, also
    the "API is not enabled" page, [__parseJSON] never raises APIDisabled:
    an exception that leaves it is one of those two, and leaves the request
    object and the trace as they were. *)
Theorem undecodable_body :
  forall fuel self w r rest,
    script w = Answers r :: rest ->
    (undecodable (json r) = true ->
     parse_retry (S fuel) self w
     = Some (Raise (if gzipped (info r) then TypeError
                    else UnsupportedOperation),
             set_response (Some (info r)) self,
             {| script := rest;
                trace := trace w ++ [Opened (request self)] |}))
    /\ (forall e self' w',
           parseJSON r (set_response (Some (info r)) self)
             {| script := rest; trace := trace w ++ [Opened (request self)] |}
           = Some (Raise e, self', w') ->
           e <> APIDisabled
           /\ (e = TypeError \/ e = UnsupportedOperation)
           /\ self' = set_response (Some (info r)) self
           /\ trace w' = trace w ++ [Opened (request self)]).
Proof.
  intros fuel self w r rest Hs. split.
  - intros Hu. cbn [parse_retry]. unfold nbind at 1.
    rewrite (getRaw_answers _ _ _ _ Hs). unfold nbind at 1.
    rewrite (parseJSON_undecodable _ _ _ Hu), rescue_clause_raises.
    reflexivity.
  - intros e self' w' H.
    destruct (parseJSON_not_disabled _ _ _ _ _ _ H) as (-> & -> & ->).
    destruct (gzipped (info r)); repeat split; auto; discriminate.
Qed.

(** ** The legacy protocol *)

Lemma dget_of_pair {V : Type} (k : string) (v : V) (d : dict V) :
  NoDup (dkeys d) -> In (k, v) d -> dget k d = Some v.
Proof.
  induction d as [|[k' v'] r IH]; simpl; [contradiction|].
  intros Hnd [H|H].
  - injection H as -> ->. now rewrite String.eqb_refl.
  - inversion Hnd as [|? ? Hnotin Hnd']. subst.
    destruct (String.eqb k' k) eqn:E.
    + apply String.eqb_eq in E. subst k'. exfalso. apply Hnotin.
      change k with (fst (k, v)). now apply in_map.
    + now apply IH.
Qed.

Lemma scan_in_order (qc : pdict) (l : pdict) :
  (forall k v, In (k, v) l ->
               k <> "" /\ dget k qc = Some v /\ exists d, v = VDict d) ->
  scan qc (dkeys l) "" "" = Ok (first_short_pair (outstanding l)).
Proof.
  induction l as [|[k v] r IH]; intros Hall; [reflexivity|].
  destruct (Hall k v (or_introl eq_refl)) as (Hk & Hget & d & ->).
  cbn [dkeys map fst snd scan outstanding first_short_pair].
  unfold inner_keys, dindex. rewrite Hget. cbn [bind].
  destruct (first_short (dkeys d)) as [key|].
  - replace (String.eqb k "") with false
      by (symmetry; now apply String.eqb_neq).
    reflexivity.
  - cbn [String.eqb]. apply IH. intros k' v' Hin. apply Hall. now right.
Qed.

(** X13.  On a [query-continue] mapping with several outer keys (none of
    them empty, each with a mapping of inner keys) the selection goes
    through the outer keys in order and, within each, through the inner
    keys in order, and takes the first inner key shorter than 11
    characters with its outer key.  When no inner key is that short it
    raises TypeError: the fallback indexes a view. *)
Theorem select_scans_in_order :
  forall qc,
    List.length qc <> 1%nat ->
    NoDup (dkeys qc) ->
    (forall k v, In (k, v) qc -> k <> "" /\ exists d, v = VDict d) ->
    select qc
    = match first_short_pair (outstanding qc) with
      | Some chosen => Ok chosen
      | None => Raise TypeError
      end.
Proof.
  intros qc Hlen Hnd Hall. unfold select.
  replace (List.length (dkeys qc) =? 1)%nat with false.
  - rewrite (scan_in_order qc qc).
    + cbn [bind]. destruct (first_short_pair (outstanding qc)); reflexivity.
    + intros k v Hin. destruct (Hall k v Hin) as (Hk & Hd).
      split; [exact Hk|]. split; [|exact Hd]. now apply dget_of_pair.
  - symmetry. apply Nat.eqb_neq. unfold dkeys. now rewrite length_map.
Qed.

Lemma first_short_found (keylist : list string) (key : string) :
  first_short keylist = Some key ->
  In key keylist /\ (String.length key < 11)%nat.
Proof.
  induction keylist as [|k r IH]; simpl; [discriminate|].
  destruct (String.length k <? 11)%nat eqn:E.
  - intros H. injection H as <-. split; auto. now apply Nat.ltb_lt.
  - intros H. destruct (IH H). auto.
Qed.

Lemma scan_sound (qc : pdict) (possible : list string) :
  forall key1 key2 chosen,
    scan qc possible key1 key2 = Ok (Some chosen) ->
    key1 = "" ->
    exists keylist,
      inner_keys qc (fst chosen) = Ok keylist
      /\ In (snd chosen) keylist
      /\ (String.length (snd chosen) < 11)%nat.
Proof.
  induction possible as [|posskey r IH]; intros key1 key2 chosen H Hk;
    [discriminate|].
  cbn [scan] in H.
  destruct (inner_keys qc posskey) as [keylist|e] eqn:Ei; [|discriminate].
  cbn [bind] in H. destruct (first_short keylist) as [key|] eqn:E.
  - destruct (String.eqb posskey "") eqn:Ep.
    + eapply IH; eauto. now apply String.eqb_eq.
    + injection H as <-. exists keylist. cbn [fst snd].
      split; [exact Ei|]. now apply first_short_found.
  - subst key1. cbn [String.eqb] in H. eapply IH; eauto.
Qed.

Lemma select_sound (qc : pdict) (key1 key2 : string) :
  select qc = Ok (key1, key2) ->
  exists inner,
    dget key1 qc = Some (VDict inner)
    /\ In key2 (dkeys inner)
    /\ (String.length key2 < 11)%nat.
Proof.
  unfold select. destruct (List.length (dkeys qc) =? 1)%nat; [discriminate|].
  destruct (scan qc (dkeys qc) "" "") as [[chosen|]|e] eqn:E;
    try discriminate.
  cbn [bind]. intros H. injection H as ->.
  destruct (scan_sound _ _ _ _ _ E eq_refl) as (keylist & Hi & Hin & Hlen).
  cbn [fst snd] in *. unfold inner_keys, dindex in Hi.
  destruct (dget key1 qc) as [[]|]; try discriminate.
  injection Hi as <-. eexists. split; [reflexivity|]. split; assumption.
Qed.

Lemma short_is_no_generator (key2 : string) :
  (String.length key2 < 11)%nat -> is_generator key2 = false.
Proof.
  intros H. unfold is_generator. apply andb_false_iff. left.
  now apply Nat.leb_gt.
Qed.

(** X14.  A pair the selection returns is a pair of the mapping, and its
    inner key is shorter than 11 characters.  So no key [__longQuery]
    selects is ever a generator key: [self._generator] stays as it is and
    the selected key is tracked in [self._continues]. *)
Theorem select_never_picks_generator :
  forall qc key1 key2,
    select qc = Ok (key1, key2) ->
    (exists inner,
        dget key1 qc = Some (VDict inner) /\ In key2 (dkeys inner))
    /\ (String.length key2 < 11)%nat
    /\ forall cont self,
         _generator (track key2 cont self) = _generator self
         /\ In key2 (_continues (track key2 cont self)).
Proof.
  intros qc key1 key2 H.
  destruct (select_sound _ _ _ H) as (inner & Hget & Hin & Hlen).
  split; [eauto|]. split; [exact Hlen|].
  intros cont self. unfold track.
  rewrite (short_is_no_generator _ Hlen).
  cbn [_generator _continues set_data set_tracking]. split; auto.
  apply set_add_In. now left.
Qed.

Lemma init_data_kept (w : Wiki) (d : pdict) (k : string) (v : value) :
  dget k d = Some v ->
  k <> "format" ->
  dget k (init_data w d false) = Some v.
Proof.
  intros Hk Hf.
  destruct (string_dec k "maxlag") as [->|Hm].
  - now rewrite init_data_maxlag, Hk.
  - destruct (string_dec k "assert") as [->|Ha].
    + rewrite init_data_assert. now destruct (assertval w).
    + now rewrite init_data_other.
Qed.

Lemma select_not_empty (qc : pdict) (chosen : string * string) :
  select qc = Ok chosen -> (List.length (dkeys qc) =? 0)%nat = false.
Proof. destruct qc; [discriminate|reflexivity]. Qed.

(** The loop of [__longQuery] up to the constructor of the follow-up
    request. *)
Lemma longQuery_reaches_constructor (fuel : nat) (d : pdict)
  (h : dict string) (qc : pdict) (key1 key2 : string) (cont : value)
  (self : APIRequest) (w : world) :
  dget "query-continue" d = Some (VDict qc) ->
  select qc = Ok (key1, key2) ->
  continuation_value qc key1 key2 = Ok cont ->
  let self' := track key2 cont (set_tracking [] "" self) in
  longQuery (S fuel) (APIResult d h) self w
  = match init (wiki self') (data self') false false with
    | Raise e => Some (Raise e, self', w)
    | Ok req =>
        (res' <~ on_request req (query_once fuel) ;;
         total' <~ lift (combine_all (dkeys qc) (APIResult d h) res') ;;
         n <~ lift (has <- payload_mem "query-continue" res' ;;
                    if has then numkeys_of res' else Ok O) ;;
         longQuery_loop fuel n total' res')%engine self' w
    end.
Proof.
  intros Hqc Hsel Hcont self'.
  unfold longQuery. unfold nbind at 1, call.
  unfold nbind at 1, lift, numkeys_of, payload_index, dindex.
  rewrite Hqc. cbn [bind longQuery_loop].
  rewrite (select_not_empty _ _ Hsel).
  unfold nbind at 1, lift, payload_index, dindex. rewrite Hqc. cbn [bind].
  unfold nbind at 1. rewrite Hsel.
  unfold nbind at 1. cbn [fst snd]. rewrite Hcont.
  unfold nbind at 1, call.
  unfold nbind at 1. fold self'.
  destruct (init (wiki self') (data self') false false); reflexivity.
Qed.

(** X15.  A continuation value that is text stops the legacy protocol:
    the value is encoded to [bytes], [bytes] is written into the
    parameters, and the constructor of the follow-up request ends with the
    AttributeError of [urlencode].  No follow-up request is sent, and the
    aggregate is lost. *)
Theorem text_continuation_stops_longQuery :
  forall fuel d h qc inner key1 key2 text self w,
    dget "query-continue" d = Some (VDict qc) ->
    select qc = Ok (key1, key2) ->
    dget key1 qc = Some (VDict inner) ->
    dget key2 inner = Some (VStr text) ->
    key2 <> "format" ->
    longQuery (S fuel) (APIResult d h) self w
    = Some (Raise AttributeError,
            track key2 (VBytes (Encoder.utf8 text)) (set_tracking [] "" self),
            w).
Proof.
  intros fuel d h qc inner key1 key2 text self w Hqc Hsel H1 H2 Hf.
  assert (Hcont : continuation_value qc key1 key2
                  = Ok (VBytes (Encoder.utf8 text))).
  { unfold continuation_value, dindex. rewrite H1. cbn [bind subscript].
    unfold dindex. now rewrite H2. }
  rewrite (longQuery_reaches_constructor fuel d h qc key1 key2 _ self w
             Hqc Hsel Hcont).
  cbv zeta. rewrite init_standard.
  rewrite (urlencode_other_value _ key2 (VBytes (Encoder.utf8 text)));
    auto.
  apply init_data_kept; auto. unfold track.
  destruct (is_generator key2); cbn [data set_data]; apply dget_dset_same.
Qed.

(** X16.  A continuation value that is a number takes the legacy protocol
    through one turn: the key is tracked, the parameter is set to the
    number, a new request is constructed from the parameters and sent
    once, and when its page has no [query-continue] the result is the
    first page with the new page merged in, once per outer key of the
    first page's [query-continue]. *)
Theorem number_continuation_follows_up :
  forall fuel d h qc inner key1 key2 n self w req r rest page total,
    dget "query-continue" d = Some (VDict qc) ->
    select qc = Ok (key1, key2) ->
    dget key1 qc = Some (VDict inner) ->
    dget key2 inner = Some (VInt n) ->
    init (wiki self) (dset key2 (VInt n) (data self)) false false = Ok req ->
    script w = Answers r :: rest ->
    page_response r page ->
    dmem "query-continue" page = false ->
    combine_all (dkeys qc) (APIResult d h) (APIResult page (info r))
    = Ok total ->
    longQuery (S (S fuel)) (APIResult d h) self w
    = Some (Ok total,
            set_data (dset key2 (VInt n) (data self))
              (set_tracking [key2] "" self),
            {| script := rest; trace := trace w ++ [Opened (request req)] |}).
Proof.
  intros fuel d h qc inner key1 key2 n self w req r rest page total
    Hqc Hsel H1 H2 Hinit Hs Hp Hq Hcomb.
  assert (Hcont : continuation_value qc key1 key2 = Ok (VInt n)).
  { unfold continuation_value, dindex. rewrite H1. cbn [bind subscript].
    unfold dindex. now rewrite H2. }
  destruct (select_sound _ _ _ Hsel) as (_ & _ & _ & Hlen).
  rewrite (longQuery_reaches_constructor (S fuel) d h qc key1 key2 _ self w
             Hqc Hsel Hcont).
  cbv zeta. unfold track. rewrite (short_is_no_generator _ Hlen).
  cbn [data wiki set_data set_tracking _continues _generator set_add
    existsb app].
  rewrite Hinit.
  unfold nbind at 1, on_request, query_once.
  unfold nbind at 1. rewrite (parse_retry_page _ _ _ r page rest Hs Hp).
  unfold nbind at 1. rewrite raise_on_error_page by apply Hp.
  unfold nbind at 1, lift at 1, payload_mem. unfold ret at 1.
  unfold nbind at 1, lift at 1. rewrite Hcomb.
  unfold nbind at 1, lift at 1, payload_mem. rewrite Hq.
  cbn [bind longQuery_loop Nat.eqb ret]. reflexivity.
Qed.

(** ** The result merger *)

(** X17.  For a type that is a member of the [query] of the response the
    merge appends the list of the response to the list of the aggregate:
    the order is kept and nothing is dropped, repeated entries included.
    An aggregate that has no such list makes it raise: KeyError when the
    type is missing, AttributeError when it is there but no list. *)
Theorem basic_list_is_extended :
  forall ty d h q nd nh nq more,
    dget "query" d = Some (VDict q) ->
    dget "query" nd = Some (VDict nq) ->
    dget ty nq = Some (VList more) ->
    resultCombine ty (APIResult d h) (APIResult nd nh)
    = match dget ty q with
      | Some (VList l) =>
          Ok (APIResult
                (dset "query" (VDict (dset ty (VList (l ++ more)) q)) d) h)
      | Some _ => Raise AttributeError
      | None => Raise (KeyError ty)
      end.
Proof.
  intros ty d h q nd nh nq more Hq Hnq Hty.
  unfold resultCombine, payload_index, dindex. rewrite Hnq.
  cbn [bind value_mem]. unfold dmem. rewrite Hty. rewrite Hq.
  cbn [bind subscript]. unfold dindex.
  destruct (dget ty q) as [[]|]; try reflexivity.
  cbn [bind]. rewrite Hty. cbn [bind iterate set_query_item].
  unfold dindex. rewrite Hq. reflexivity.
Qed.

Lemma mapM_item_tuple_raises (l : list pdict) :
  all_hashable l = false ->
  mapM item_tuple (map VDict l) = Raise TypeError.
Proof.
  unfold all_hashable.
  induction l as [|t r IH]; simpl; [discriminate|].
  destruct (forallb (fun kv => hashable (snd kv)) t); simpl; auto.
  intros H. now rewrite (IH H).
Qed.

Lemma all_hashable_Forall (l : list pdict) :
  all_hashable l = true -> Forall hashable_tuple l.
Proof.
  unfold all_hashable. intros H. apply Forall_forall. intros t Hin.
  rewrite forallb_forall in H. now apply H.
Qed.

(** X18.  Entries with a nested value cannot be merged: when a page has
    the property on both sides and some entry of either list holds a list
    or a dictionary, the merge raises TypeError (the entry cannot be put
    into a set), and the aggregate is lost with it. *)
Theorem nested_entries_raise :
  forall ty key ret new d h q pages nd nh nq rp np rs ns,
    has_pages ret d h q pages ->
    has_pages new nd nh nq [(key, VDict np)] ->
    dmem ty nq = false ->
    dget key pages = Some (VDict rp) ->
    dget ty rp = Some (VList (map VDict rs)) ->
    dget ty np = Some (VList (map VDict ns)) ->
    all_hashable (rs ++ ns) = false ->
    resultCombine ty ret new = Raise TypeError.
Proof.
  intros ty key ret new d h q pages nd nh nq rp np rs ns
    Hret Hnew Hty Hk Hrp Hnp Hbad.
  rewrite (resultCombine_pages ty ret new _ _ _ _ Hnew Hty).
  cbn [dkeys map fst]. rewrite combine_single_page.
  rewrite (combine_page_merge_page ty key ret new _ _ _ _ _ _ _ _
             (VDict np) Hret Hnew)
    by (cbn [dget]; now rewrite String.eqb_refl).
  rewrite Hk. cbn [merge_page value_mem bind]. unfold dmem.
  rewrite Hnp, Hrp. cbn [negb bind subscript]. unfold dindex.
  rewrite Hrp, Hnp. cbn [bind]. unfold merge_entries. cbn [iterate bind].
  destruct (all_hashable rs) eqn:Ers.
  - rewrite (mapM_item_tuple _ (all_hashable_Forall _ Ers)). cbn [bind].
    rewrite mapM_item_tuple_raises; [reflexivity|].
    unfold all_hashable in *. rewrite forallb_app, Ers in Hbad. exact Hbad.
  - now rewrite mapM_item_tuple_raises.
Qed.

Lemma filter_filter {A : Type} (f g : A -> bool) (l : list A) :
  filter f (filter g l) = filter (fun x => g x && f x) l.
Proof.
  induction l as [|x r IH]; simpl; auto.
  destruct (g x); simpl; [destruct (f x)|]; now rewrite IH.
Qed.

Lemma set_of_app (a b : list pdict) :
  set_of (a ++ b) = set_of a ++ filter (fresh_for a) (set_of b).
Proof.
  induction a as [|t a IH]; cbn [app set_of].
  - symmetry. unfold fresh_for. cbn [existsb negb].
    induction (set_of b) as [|x r IHr]; simpl; auto. now rewrite IHr.
  - rewrite IH, filter_app, filter_filter. f_equal. f_equal.
    apply filter_ext. intros u. unfold fresh_for. cbn [existsb].
    rewrite negb_orb. apply andb_comm.
Qed.

Lemma set_of_absorbs (a b : list pdict) :
  (forall u, In u b -> exists t, In t a /\ tuple_eqb t u = true) ->
  set_of (a ++ b) = set_of a.
Proof.
  intros H. rewrite set_of_app.
  assert (E : filter (fresh_for a) (set_of b) = []).
  { assert (G : forall l, (forall u, In u l -> In u b) ->
                          filter (fresh_for a) l = []).
    { induction l as [|u l IHl]; intros Hl; [reflexivity|]. simpl.
      destruct (H u (Hl u (or_introl eq_refl))) as (t & Ht & Htu).
      assert (Hf : fresh_for a u = false).
      { unfold fresh_for. apply negb_false_iff. apply existsb_exists.
        eauto. }
      rewrite Hf. apply IHl. intros x Hx. apply Hl. now right. }
    apply G. apply set_of_incl. }
  rewrite E. apply app_nil_r.
Qed.

(** X19.  A response that brings nothing new adds nothing: when every
    entry of the response is equal, as an item tuple, to an entry the
    aggregate has for the page, the merged list holds the entries of the
    aggregate alone, each once.  Merging the same response twice is the
    same as merging it once. *)
Theorem known_entries_are_absorbed :
  forall ty key ret new d h q pages nd nh nq rp np rs ns,
    has_pages ret d h q pages ->
    has_pages new nd nh nq [(key, VDict np)] ->
    dmem ty nq = false ->
    dget key pages = Some (VDict rp) ->
    dget ty rp = Some (VList (map VDict rs)) ->
    dget ty np = Some (VList (map VDict ns)) ->
    all_hashable (rs ++ ns) = true ->
    (forall u, In u ns -> exists t, In t rs /\ tuple_eqb t u = true) ->
    resultCombine ty ret new
    = Ok (with_pages d h q
            (dset key
               (VDict (dset ty (VList (map VDict (set_iter (set_of rs)))) rp))
               pages)).
Proof.
  intros ty key ret new d h q pages nd nh nq rp np rs ns
    Hret Hnew Hty Hk Hrp Hnp Hok Hknown.
  unfold all_hashable in Hok. rewrite forallb_app in Hok.
  apply andb_true_iff in Hok as [Hrs Hns].
  rewrite (resultCombine_pages ty ret new _ _ _ _ Hnew Hty).
  cbn [dkeys map fst]. rewrite combine_single_page.
  rewrite (combine_page_merge_page ty key ret new _ _ _ _ _ _ _ _
             (VDict np) Hret Hnew)
    by (cbn [dget]; now rewrite String.eqb_refl).
  rewrite Hk. cbn [merge_page value_mem bind]. unfold dmem.
  rewrite Hnp, Hrp. cbn [negb bind subscript]. unfold dindex.
  rewrite Hrp, Hnp. cbn [bind]. unfold merge_entries. cbn [iterate bind].
  rewrite (mapM_item_tuple _ (all_hashable_Forall _ Hrs)).
  rewrite (mapM_item_tuple _ (all_hashable_Forall _ Hns)).
  cbn [bind set_item]. now rewrite (set_of_absorbs _ _ Hknown).
Qed.

(** ** The modern protocol *)

Lemma dset_simple (k : string) (v : value) (q : pdict) :
  is_simple v = true ->
  forallb (fun kv => is_simple (snd kv)) q = true ->
  forallb (fun kv => is_simple (snd kv)) (dset k v q) = true.
Proof.
  intros Hv. induction q as [|[k' v'] r IH]; simpl.
  - now rewrite Hv.
  - intros H. apply andb_true_iff in H as [H1 H2].
    destruct (String.eqb k' k); simpl.
    + now rewrite Hv, H2.
    + now rewrite H1, IH.
Qed.

(** X20.  The first resumption of [queryGen] saves the request as it is,
    adds the parameter [continue] with the empty text, sends the request
    encoded from the parameters with it, and hands out the page right
    after the exchange.  The saved request is the one without
    [continue]. *)
Theorem queryGen_first_request :
  forall fuel self w r rest page,
    multipart self = false ->
    forallb (fun kv => is_simple (snd kv)) (data self) = true ->
    script w = Answers r :: rest ->
    page_response r page ->
    exists self1,
      next (S fuel) Unstarted self w
      = Some (Ok (Some (APIResult page (info r))),
              Suspended (APIResult page (info r)) (request self),
              set_response (Some (info r)) self1,
              {| script := rest;
                 trace := trace w ++ [Opened (request self1)] |})
      /\ data self1 = dset "continue" (VStr "") (data self)
      /\ Encoder.urlencode (dset "continue" (VStr "") (data self))
         = Ok (body (request self1)).
Proof.
  intros fuel self w r rest page Hm Hsimple Hs Hp.
  assert (Hc := changeParam_standard "continue" (VStr "") self Hm
                  ltac:(discriminate)).
  assert (He : Encoder.urlencode (dset "continue" (VStr "") (data self))
               = Ok (urlencode_spec
                       (dset "continue" (VStr "") (data self)))).
  { unfold Encoder.urlencode, urlencode_spec.
    rewrite encode_pairs_simple; [reflexivity|].
    now apply dset_simple. }
  rewrite He in Hc. cbv zeta in Hc.
  eexists. split; [|split].
  - cbn [next]. rewrite Hc.
    apply (turn_yields_last_exchange fuel (request self) _ w r page rest Hs
             Hp).
  - reflexivity.
  - exact He.
Qed.

(** X21.  After a page with a [continue] mapping that is not empty, the
    next resumption of [queryGen] sends a request encoded from
    [self.data] with the members of the mapping written over it:
    restoring the saved request has been overtaken by the [changeParam]
    calls.  The page is handed out right after the exchange. *)
Theorem queryGen_next_request :
  forall fuel d h reqcopy self w items self1 r rest page,
    multipart self = false ->
    dget "continue" d = Some (VDict items) ->
    items <> [] ->
    change_all items (set_request reqcopy self) = (Ok tt, self1) ->
    script w = Answers r :: rest ->
    page_response r page ->
    next (S fuel) (Suspended (APIResult d h) reqcopy) self w
    = Some (Ok (Some (APIResult page (info r))),
            Suspended (APIResult page (info r)) reqcopy,
            set_response (Some (info r)) self1,
            {| script := rest; trace := trace w ++ [Opened (request self1)] |})
    /\ data self1 = dupdate (data self) items
    /\ Encoder.urlencode (dupdate (data self) items)
       = Ok (body (request self1)).
Proof.
  intros fuel d h reqcopy self w items self1 r rest page
    Hm Hd Hne Hall Hs Hp.
  split; [|split].
  - cbn [next payload_mem payload_index]. unfold dmem, dindex. rewrite Hd.
    cbn [continue_items]. rewrite Hall.
    apply (turn_yields_last_exchange fuel reqcopy self1 w r page rest Hs Hp).
  - apply (change_all_data items _ _ Hall).
  - apply (change_all_request items (set_request reqcopy self) self1 Hm Hne
             Hall).
Qed.

End More.

(** ** The further properties on concrete requests *)

Lemma urlencode_roundtrip_simple_witness :
  forallb (fun kv => is_simple (snd kv)) cafe = true
  /\ exists body,
       Encoder.urlencode cafe = Ok body /\ parse_qsl body = as_text cafe.
Proof.
  split; [reflexivity|]. exact (urlencode_roundtrip_simple cafe eq_refl).
Defined.

Lemma init_parameters_witness :
  @init no_poster site wants_xml false false = Ok (built site wants_xml false)
  /\ dget "maxlag" (data (built site wants_xml false)) = Some (VInt 5)
  /\ dget "titles" (data (built site wants_xml false))
     = Some (VStr "Main Page").
Proof.
  assert (H : @init no_poster site wants_xml false false
              = Ok (built site wants_xml false)) by reflexivity.
  split; [exact H|].
  destruct (@init_parameters no_poster site wants_xml false false _ H)
    as (Hk & _ & Hm & _).
  split; [exact Hm|].
  apply (Hk "titles"); discriminate.
Defined.

Lemma init_rejects_other_values_witness :
  dget "titles" two_titles = Some (VList [VStr "A"; VStr "B"])
  /\ @init no_poster site two_titles false false = Raise AttributeError.
Proof.
  split; [reflexivity|].
  apply (@init_rejects_other_values no_poster site two_titles false "titles"
           (VList [VStr "A"; VStr "B"]));
    [reflexivity|reflexivity|discriminate|discriminate].
Defined.

Lemma body_follows_parameters_witness :
  multipart patient = false
  /\ encoded (snd (@changeParam no_poster "titles" (VStr "B") patient)).
Proof.
  split; [reflexivity|].
  refine (proj1 (proj2 (@body_follows_parameters no_poster) "titles"
                   (VStr "B") patient _ eq_refl _)).
  reflexivity.
Defined.

Lemma failed_changeParam_keeps_value_witness :
  multipart patient = false
  /\ @changeParam no_poster "titles" (VList [VStr "A"; VStr "B"]) patient
     = (Raise AttributeError,
        set_data (dset "titles" (VList [VStr "A"; VStr "B"]) (data patient))
          patient).
Proof.
  split; [reflexivity|].
  apply (@failed_changeParam_keeps_value no_poster);
    [reflexivity|discriminate|reflexivity].
Defined.

Lemma patient_encoded : encoded patient.
Proof. repeat split. Defined.

Lemma setMultipart_keeps_request_witness :
  encoded patient
  /\ @setMultipart no_poster false patient = (Ok tt, patient).
Proof.
  split; [exact patient_encoded|].
  exact (proj2 (@setMultipart_keeps_request no_poster) patient
           patient_encoded eq_refl).
Defined.

Lemma getRaw_recovers_witness :
  iswrite hasty = false
  /\ (List.length ["timed out"]
      <= retries (sleep hasty) (maxwaittime (wiki hasty)))%nat
  /\ getRaw hasty (before (map Fails ["timed out"]
                           ++ Answers empty_page :: []))
     = Some (Ok empty_page,
             set_response (Some (info empty_page)) (set_sleep 10 hasty),
             {| script := [];
                trace := [Opened (request hasty); Slept 11;
                          Opened (request hasty)] |}).
Proof.
  split; [reflexivity|]. split; [vm_compute; lia|].
  apply (getRaw_recovers hasty
           (before (map Fails ["timed out"] ++ Answers empty_page :: []))
           ["timed out"] empty_page []);
    [reflexivity|vm_compute; lia|reflexivity].
Defined.

Lemma maxlag_never_leaves_the_loop_witness :
  has_maxlag_error
    (APIResult links_page (info (answer (VDict links_page)))) = false.
Proof.
  eapply (maxlag_never_leaves_the_loop 2 patient
            (before [Answers lagged; Answers (answer (VDict links_page))])).
  reflexivity.
Defined.

Lemma error_response_raises_witness :
  iswrite edit = true
  /\ @query no_poster insertion_order 1 true edit
       (before [Answers (answer (VDict blocked_error))])
     = Some (Raise (UserBlocked (VStr "You have been blocked from editing")),
             set_response (Some (info (answer (VDict blocked_error)))) edit,
             {| script := []; trace := [Opened (request edit)] |}).
Proof.
  split; [reflexivity|].
  exact (@error_response_raises no_poster insertion_order O true edit
           (before [Answers (answer (VDict blocked_error))])
           (answer (VDict blocked_error)) [] blocked_error
           [("code", VStr "blocked");
            ("info", VStr "You have been blocked from editing")]
           (VStr "blocked")
           eq_refl eq_refl eq_refl eq_refl eq_refl eq_refl).
Defined.

Lemma query_needs_action_witness :
  dget "action" (data no_action) = None
  /\ @query no_poster insertion_order 1 true no_action
       (before [Answers (answer (VDict links_page))])
     = Some (Raise (KeyError "action"), no_action,
             before [Answers (answer (VDict links_page))]).
Proof.
  split; [reflexivity|].
  exact (proj1 (@query_needs_action no_poster insertion_order O no_action
                  (before [Answers (answer (VDict links_page))])
                  (answer (VDict links_page)) [] links_page
                  eq_refl eq_refl links_page_is_page)).
Defined.

Lemma empty_object_is_asked_again_witness :
  json (answer (VDict [])) = Some (VDict [])
  /\ @query no_poster insertion_order 2 true patient
       (before [Answers (answer (VDict []));
                Answers (answer (VDict links_page))])
     = Some (Ok (APIResult links_page (info (answer (VDict links_page)))),
             set_response (Some (info (answer (VDict links_page)))) patient,
             {| script := [];
                trace := [Opened (request patient);
                          Opened (request patient)] |}).
Proof.
  split; [reflexivity|].
  exact (@empty_object_is_asked_again no_poster insertion_order O true
           patient
           (before [Answers (answer (VDict []));
                    Answers (answer (VDict links_page))])
           (answer (VDict [])) (answer (VDict links_page)) links_page []
           eq_refl eq_refl links_page_is_page eq_refl eq_refl).
Defined.

Lemma undecodable_body_witness :
  script (before [Answers disabled]) = [Answers disabled]
  /\ undecodable (json disabled) = true
  /\ parse_retry 1 patient (before [Answers disabled])
     = Some (Raise UnsupportedOperation,
             set_response (Some (info disabled)) patient,
             {| script := []; trace := [Opened (request patient)] |})
  /\ parse_retry 1 patient (before [Answers (answer (VInt 3))])
     = Some (Raise TypeError,
             set_response (Some (info (answer (VInt 3)))) patient,
             {| script := []; trace := [Opened (request patient)] |}).
Proof.
  split; [reflexivity|]. split; [reflexivity|]. split.
  - exact (proj1 (undecodable_body O patient (before [Answers disabled])
                    disabled [] eq_refl) eq_refl).
  - reflexivity.
Defined.

Lemma two_props_well_formed :
  NoDup (dkeys two_props)
  /\ forall k v, In (k, v) two_props -> k <> "" /\ exists d, v = VDict d.
Proof.
  split.
  - repeat constructor; simpl; intuition discriminate.
  - intros k v [H|[H|[]]]; injection H as <- <-;
      (split; [discriminate|eexists; reflexivity]).
Defined.

Lemma select_scans_in_order_witness :
  List.length two_props <> 1%nat
  /\ select two_props = Ok ("images", "imcontinue").
Proof.
  split; [discriminate|].
  exact (select_scans_in_order two_props ltac:(discriminate)
           (proj1 two_props_well_formed) (proj2 two_props_well_formed)).
Defined.

Lemma select_never_picks_generator_witness :
  select two_props = Ok ("images", "imcontinue")
  /\ (String.length "imcontinue" < 11)%nat.
Proof.
  assert (H : select two_props = Ok ("images", "imcontinue")) by reflexivity.
  split; [exact H|].
  exact (proj1 (proj2 (select_never_picks_generator two_props "images"
                         "imcontinue" H))).
Defined.

Lemma text_continuation_stops_longQuery_witness :
  select two_props = Ok ("images", "imcontinue")
  /\ @longQuery no_poster insertion_order 1 (APIResult first_images [])
       patient (before [Answers empty_page])
     = Some (Raise AttributeError,
             track "imcontinue" (VBytes "foo") (set_tracking [] "" patient),
             before [Answers empty_page]).
Proof.
  split; [reflexivity|].
  exact (@text_continuation_stops_longQuery no_poster insertion_order O
           first_images [] two_props [("imcontinue", VStr "foo")]
           "images" "imcontinue" "foo" patient (before [Answers empty_page])
           eq_refl eq_refl eq_refl eq_refl ltac:(discriminate)).
Defined.

Lemma more_hits_is_page : page_response (answer (VDict more_hits)) more_hits.
Proof. split; [reflexivity|split; [discriminate|reflexivity]]. Defined.

Lemma number_continuation_follows_up_witness :
  select two_lists = Ok ("search", "sroffset")
  /\ @longQuery no_poster insertion_order 2 (APIResult first_hits [])
       searching (before [Answers (answer (VDict more_hits))])
     = Some (Ok (APIResult all_hits []),
             set_data (dset "sroffset" (VInt 10) (data searching))
               (set_tracking ["sroffset"] "" searching),
             {| script := []; trace := [Opened (request search_on)] |}).
Proof.
  split; [reflexivity|].
  exact (@number_continuation_follows_up no_poster insertion_order O
           first_hits [] two_lists [("sroffset", VInt 10)]
           "search" "sroffset" 10 searching
           (before [Answers (answer (VDict more_hits))]) search_on
           (answer (VDict more_hits)) [] more_hits (APIResult all_hits [])
           eq_refl eq_refl eq_refl eq_refl eq_refl eq_refl
           more_hits_is_page eq_refl eq_refl).
Defined.

Lemma basic_list_is_extended_witness :
  dget "search" [("search", hits ["C"])] = Some (hits ["C"])
  /\ @resultCombine insertion_order "search"
       (APIResult [("query", VDict [("search", hits ["A"; "B"])])] [])
       (APIResult [("query", VDict [("search", hits ["C"])])] [])
     = Ok (APIResult [("query", VDict [("search", hits ["A"; "B"; "C"])])] []).
Proof.
  split; [reflexivity|].
  exact (@basic_list_is_extended insertion_order "search"
           [("query", VDict [("search", hits ["A"; "B"])])] []
           [("search", hits ["A"; "B"])]
           [("query", VDict [("search", hits ["C"])])] []
           [("search", hits ["C"])]
           (map (fun t => VDict [("title", VStr t)]) ["C"])
           eq_refl eq_refl eq_refl).
Defined.

Lemma nested_entries_raise_witness :
  all_hashable ([revision] ++ [revision]) = false
  /\ @resultCombine insertion_order "revisions"
       (response_of "revisions" [revision])
       (response_of "revisions" [revision])
     = Raise TypeError.
Proof.
  split; [reflexivity|].
  exact (@nested_entries_raise insertion_order "revisions" "1"
           (response_of "revisions" [revision])
           (response_of "revisions" [revision])
           _ _ _ _ _ _ _
           (page_with "revisions" [revision])
           (page_with "revisions" [revision])
           [revision] [revision]
           (conj eq_refl (conj eq_refl eq_refl))
           (conj eq_refl (conj eq_refl eq_refl))
           eq_refl eq_refl eq_refl eq_refl eq_refl).
Defined.

Lemma link_B_known :
  forall u, In u [link "B"] ->
            exists t, In t [link "A"; link "B"] /\ tuple_eqb t u = true.
Proof.
  intros u [<-|[]]. exists (link "B"). split; [right; left|]; reflexivity.
Defined.

Lemma known_entries_are_absorbed_witness :
  all_hashable ([link "A"; link "B"] ++ [link "B"]) = true
  /\ @resultCombine insertion_order "links"
       (response_of "links" [link "A"; link "B"])
       (response_of "links" [link "B"])
     = Ok (response_of "links" [link "A"; link "B"]).
Proof.
  split; [reflexivity|].
  exact (@known_entries_are_absorbed insertion_order "links" "1"
           (response_of "links" [link "A"; link "B"])
           (response_of "links" [link "B"])
           _ _ _ _ _ _ _
           (page_with "links" [link "A"; link "B"])
           (page_with "links" [link "B"])
           [link "A"; link "B"] [link "B"]
           (conj eq_refl (conj eq_refl eq_refl))
           (conj eq_refl (conj eq_refl eq_refl))
           eq_refl eq_refl eq_refl eq_refl eq_refl link_B_known).
Defined.

Lemma queryGen_first_request_witness :
  multipart patient = false
  /\ exists self1,
       @next no_poster 1 Unstarted patient
         (before [Answers (answer (VDict links_page))])
       = Some (Ok (Some (APIResult links_page
                           (info (answer (VDict links_page))))),
               Suspended
                 (APIResult links_page (info (answer (VDict links_page))))
                 (request patient),
               set_response (Some (info (answer (VDict links_page)))) self1,
               {| script := []; trace := [Opened (request self1)] |})
       /\ data self1 = dset "continue" (VStr "") (data patient)
       /\ Encoder.urlencode (dset "continue" (VStr "") (data patient))
          = Ok (body (request self1)).
Proof.
  split; [reflexivity|].
  exact (@queryGen_first_request no_poster O patient
           (before [Answers (answer (VDict links_page))])
           (answer (VDict links_page)) [] links_page
           eq_refl eq_refl eq_refl links_page_is_page).
Defined.

Lemma after_page1_changed :
  @change_all no_poster continue1 (set_request (request patient) patient)
  = (Ok tt, after_page1).
Proof. vm_compute. reflexivity. Defined.

Lemma queryGen_next_request_witness :
  continue1 <> []
  /\ Encoder.urlencode (dupdate (data patient) continue1)
     = Ok (body (request after_page1)).
Proof.
  split; [discriminate|].
  exact (proj2 (proj2
           (@queryGen_next_request no_poster O page1 [] (request patient)
              patient (before [Answers (answer (VDict links_page))])
              continue1 after_page1
              (answer (VDict links_page)) [] links_page
              eq_refl eq_refl ltac:(discriminate) after_page1_changed eq_refl
              links_page_is_page))).
Defined.

Lemma two_pages_shape (a b : list pdict) :
  has_pages (two_pages a b)
    [("query",
      VDict [("pages",
              VDict [("1", VDict (page_with "links" a));
                     ("2", VDict (page_with "links" b))])])]
    []
    [("pages",
      VDict [("1", VDict (page_with "links" a));
             ("2", VDict (page_with "links" b))])]
    [("1", VDict (page_with "links" a)); ("2", VDict (page_with "links" b))].
Proof. repeat split. Defined.

Lemma resultCombine_pagewise_witness :
  @resultCombine insertion_order "links"
    (two_pages [link "A"] [link "X"]) (two_pages [link "B"] [link "X"])
  = Ok (two_pages [link "A"; link "B"] [link "X"])
  /\ exists d' q' pages',
       has_pages (two_pages [link "A"; link "B"] [link "X"]) d' [] q' pages'
       /\ forall key,
            match dget key [("1", VDict (page_with "links" [link "B"]));
                            ("2", VDict (page_with "links" [link "X"]))] with
            | None =>
                dget key pages'
                = dget key [("1", VDict (page_with "links" [link "A"]));
                            ("2", VDict (page_with "links" [link "X"]))]
            | Some newpage =>
                exists p,
                  @merge_page insertion_order "links"
                    (dget key
                       [("1", VDict (page_with "links" [link "A"]));
                        ("2", VDict (page_with "links" [link "X"]))])
                    newpage = Ok p
                  /\ dget key pages' = Some p
            end.
Proof.
  assert (H : @resultCombine insertion_order "links"
                (two_pages [link "A"] [link "X"])
                (two_pages [link "B"] [link "X"])
              = Ok (two_pages [link "A"; link "B"] [link "X"]))
    by reflexivity.
  split; [exact H|].
  refine (@resultCombine_pagewise insertion_order "links"
            (two_pages [link "A"] [link "X"])
            (two_pages [link "B"] [link "X"])
            (two_pages [link "A"; link "B"] [link "X"])
            _ [] _ _ _ [] _ _
            (two_pages_shape [link "A"] [link "X"])
            (two_pages_shape [link "B"] [link "X"])
            eq_refl _ H).
  repeat constructor; simpl; intuition discriminate.
Defined.
